(** * palo: session registry, login throttle and cart handler

    A shallow embedding of [pkg/auth/auth.go] (type [session] with its
    methods [AlreadyLoggedIn], [Clean], [Login], [Logout], [loginDelay])
    and of the [CartAdd] handler, a model of the cart aggregate of
    package [shopping] after the design document, and the properties the
    design document states about them.

    Conventions.
    - [time.Time] is the number of nanoseconds since the zero instant
      (January 1, year 1, 00:00:00 UTC), an unbounded integer;
      [time.Duration] is an [int64] count of nanoseconds.
    - Every method takes the reading [now] of [time.Now()]; the readings
      taken inside one call are identified with that one instant.
    - Methods are written in a state monad over [session] that also logs
      the lock operations, the accesses to the shared fields, the cookies
      written to the response and the goroutines started. *)

From Stdlib Require Import ZArith Lia QArith Qcanon Floats.SpecFloat.
From stdpp Require Import numbers gmap strings fin_maps list.

Local Open Scope Z_scope.

(** ** Go's [time] package *)

Module GoTime.

Abbreviation Time := Z (only parsing).
Abbreviation Duration := Z (only parsing).

Definition minDuration : Duration := - 2 ^ 63.
Definition maxDuration : Duration := 2 ^ 63 - 1.

(** Two's-complement wrap-around of [int64] arithmetic. *)
Definition wrap64 (x : Z) : Z := (x + 2 ^ 63) mod 2 ^ 64 - 2 ^ 63.

Definition Nanosecond : Duration := 1.
Definition Second : Duration := 1000000000.
Definition Hour : Duration := 3600 * Second.

(** [t.IsZero()]: [t] is the zero instant. *)
Definition IsZero (t : Time) : bool := t =? 0.

(** [t.Sub(u)]: the difference, saturated to the range of [Duration]. *)
Definition Sub (t u : Time) : Duration :=
  if t - u <? minDuration then minDuration
  else if maxDuration <? t - u then maxDuration
  else t - u.

(** [t.Add(d)]. *)
Definition Add (t : Time) (d : Duration) : Time := t + d.

(** [a * b] on [time.Duration]. *)
Definition mul (a b : Duration) : Duration := wrap64 (a * b).

End GoTime.
Import GoTime.

(** ** Package auth *)

Record userData := mkUserData {
  email : string;
  lastSeen : Time
}.

(** Type [session]; the map [tries] holds slices of [struct{}], of which
    only the length carries information. The field [DB] is the database
    handle, here the query function of [env] below; the field [length]
    is [sessionLength] here. *)
Record session := mkSession {
  store : gmap string userData;
  cleaned : Time;
  sessionLength : Z;
  tries : gmap string (list unit);
  delay : gmap string Time
}.

Definition set_store (f : gmap string userData → gmap string userData)
    (s : session) : session :=
  mkSession (f (store s)) (cleaned s) (sessionLength s) (tries s) (delay s).
Definition set_cleaned (t : Time) (s : session) : session :=
  mkSession (store s) t (sessionLength s) (tries s) (delay s).
Definition set_tries (f : gmap string (list unit) → gmap string (list unit))
    (s : session) : session :=
  mkSession (store s) (cleaned s) (sessionLength s) (f (tries s)) (delay s).
Definition set_delay (f : gmap string Time → gmap string Time) (s : session) : session :=
  mkSession (store s) (cleaned s) (sessionLength s) (tries s) (f (delay s)).

(** [NewSession], created at the instant [now]. *)
Definition NewSession (now : Time) : session :=
  mkSession ∅ now 0 ∅ ∅.

(** The row of table [users] that [Login] selects. *)
Record User := mkUser {
  ID : string;
  CartID : string;
  Username : string;
  Email : string;
  Password : string
}.

(** What [Login] consumes from outside the package: the database query
    by email ([None] when [GetContext] returns an error), bcrypt's
    comparison of a hash with a password, the random strings of
    [token.GenerateRunes], the signer [token.GenerateFixedJWT] (left: the
    token, right: its error) and the variable [AdminList]. *)
Record env := mkEnv {
  GetContext : string → option User;
  CompareHashAndPassword : string → string → bool;
  GenerateRunes : nat → string;
  GenerateFixedJWT : string → string + string;
  AdminList : list string
}.

(** Go [error] values returned by [Login]. *)
Inductive error :=
  | errorsNew (msg : string)
  | errWait (d : Duration)
  | errorsWrap (cause msg : string).

(** The user-visible message [err.Error()]; the duration of [errWait] is
    printed by [%v], kept symbolic here. *)
Inductive message :=
  | Text (msg : string)
  | PleaseWait (d : Duration).

Definition Error (e : error) : message :=
  match e with
  | errorsNew msg => Text msg
  | errWait d => PleaseWait d
  | errorsWrap cause msg => Text (msg +:+ ": " +:+ cause)
  end.

(** *** The monad *)

Inductive field := Fstore | Fcleaned | Ftries | Fdelay.

Inductive event :=
  | EvLock
  | EvUnlock
  | EvRead (f : field)
  | EvWrite (f : field)
  | EvSetCookie (name value path : string) (maxAge : Z)
  | EvDeleteCookie (name : string)
  | EvGo.

Definition M (A : Type) : Type := session → A * session * list event.

Definition ret {A} (a : A) : M A := λ s, (a, s, []).

Definition bind {A B} (m : M A) (k : A → M B) : M B :=
  λ s, let '(a, s1, l1) := m s in
       let '(b, s2, l2) := k a s1 in
       (b, s2, l1 ++ l2).

Global Instance M_ret : MRet M := @ret.
Global Instance M_bind : MBind M := λ A B k m, bind m k.

Definition emit (e : event) : M unit := λ s, (tt, s, [e]).
Definition load {A} (f : field) (proj : session → A) : M A :=
  λ s, (proj s, s, [EvRead f]).
Definition update (f : field) (upd : session → session) : M unit :=
  λ s, (tt, upd s, [EvWrite f]).

(** The field [length] is written by [NewSession] only; reading it is
    not logged. *)
Definition getLength : M Z := λ s, (sessionLength s, s, []).

Definition Lock : M unit := emit EvLock.
Definition Unlock : M unit := emit EvUnlock.

Definition result {A} (r : A * session * list event) : A := r.1.1.
Definition after {A} (r : A * session * list event) : session := r.1.2.
Definition trace {A} (r : A * session * list event) : list event := r.2.

(** [for _, x := range xs { body x }] *)
Fixpoint forRange {A} (xs : list A) (body : A → M unit) : M unit :=
  match xs with
  | [] => ret tt
  | x :: xs' => (body x ;; forRange xs' body)
  end.

(** *** Cookies *)

Definition deleteCookie (name : string) : M unit := emit (EvDeleteCookie name).

Definition setCookie (name value path : string) (length : Z) : M unit :=
  emit (EvSetCookie name value path length).

(** *** Methods of [session] *)

(** The map read [s.store[key]], [s.delay[key]] with Go's zero value for
    a missing key. *)
Definition delayOf (s : session) (key : string) : Time := default 0 (delay s !! key).
Definition triesOf (s : session) (key : string) : list unit := default [] (tries s !! key).

(** [AlreadyLoggedIn]; [cookie] is the value of the request's cookie
    [SID], [None] when [r.Cookie] returns an error. The assignment to
    [cookie.MaxAge] changes the local cookie only and is left out. *)
Definition AlreadyLoggedIn (now : Time) (cookie : option string) : M bool :=
  match cookie with
  | None => ret false
  | Some value =>
      Lock ;;
      entry ← load Fstore (λ s, store s !! value);
      match entry with
      | Some user =>
          update Fstore (set_store (insert value (mkUserData (email user) now)))
      | None => ret tt
      end ;;
      Unlock ;;
      ret (bool_decide (is_Some entry))
  end.

(** The body of the loop of [Clean], at the entry [kv]. *)
Definition sweepBody (now : Time) (kv : string * userData) : M unit :=
  if 120 * Hour <? Sub now (lastSeen kv.2)
  then update Fstore (set_store (delete kv.1))
  else ret tt.

(** [Clean]. The loop ranges over the entries of the map and deletes
    only the entry it is visiting, so every entry of the map at the start
    is visited once. *)
Definition Clean (now : Time) : M unit :=
  entries ← load Fstore (λ s, map_to_list (store s));
  forRange entries (sweepBody now) ;;
  update Fcleaned (set_cleaned now).

(** [loginDelay]. [d] is an [int], taken as 64 bits wide, and is
    converted to [time.Duration] before the product with [time.Second]. *)
Definition loginDelay (now : Time) (email : string) : M unit :=
  Lock ;;
  old ← load Ftries (λ s, triesOf s email);
  update Ftries (set_tries (insert email (old ++ [tt]))) ;;
  n ← load Ftries (λ s, Z.of_nat (length (triesOf s email)));
  let d := wrap64 (n * 2) in
  update Fdelay (set_delay (insert email (Add now (mul Second d)))) ;;
  Unlock.

(** The guard at the head of [Login]:
    [!s.delay[email].IsZero() && s.delay[email].Sub(time.Now()) > 0]. *)
Definition throttled (now : Time) (email : string) : M bool :=
  d ← load Fdelay (λ s, delayOf s email);
  ret (negb (IsZero d) && (0 <? Sub d now)).

(** [Login]. *)
Definition Login (e : env) (now : Time) (email password : string) : M (option error) :=
  wait ← throttled now email;
  if wait : bool then
    d ← load Fdelay (λ s, delayOf s email);
    ret (Some (errWait (Sub d now)))
  else
    match GetContext e email with
    | None =>
        loginDelay now email ;;
        ret (Some (errorsNew "invalid email or password"))
    | Some user =>
        if negb (CompareHashAndPassword e (Password user) password) then
          loginDelay now email ;;
          ret (Some (errorsNew "invalid email or password"))
        else
          forRange (AdminList e) (λ admin,
            if String.eqb admin (Email user)
            then len ← getLength;
                 setCookie "AID" (GenerateRunes e 8) "/" len
            else ret tt) ;;
          let sID := GenerateRunes e 27 in
          len ← getLength;
          setCookie "SID" sID "/" len ;;
          Lock ;;
          update Fstore (set_store (insert sID (mkUserData (Email user) now))) ;;
          update Ftries (set_tries (delete email)) ;;
          update Fdelay (set_delay (delete email)) ;;
          Unlock ;;
          match GenerateFixedJWT e (ID user) with
          | inr err => ret (Some (errorsWrap err "failed generating a jwt token"))
          | inl userID =>
              setCookie "UID" userID "/" len ;;
              setCookie "CID" (CartID user) "/" len ;;
              ret None
          end
    end.

(** [Logout]; [admin] tells whether the request carries the cookie
    [AID], [c] is the value of the cookie passed by the caller. The
    statement [go s.Clean()] only starts the goroutine: it is logged as
    [EvGo], and the sweep is a call of [Clean] of its own. *)
Definition Logout (now : Time) (admin : bool) (c : string) : M unit :=
  (if admin then deleteCookie "AID" else ret tt) ;;
  deleteCookie "SID" ;;
  deleteCookie "UID" ;;
  deleteCookie "CID" ;;
  Lock ;;
  update Fstore (set_store (delete c)) ;;
  Unlock ;;
  last ← load Fcleaned cleaned;
  if 30 * Second <? Sub now last then emit EvGo else ret tt.

(** *** The contract names of the design document

    [recordFailure] is [loginDelay]; [checkAllowed] is the negation of
    the guard of [Login]; [reset] is the locked block of a successful
    [Login]. *)

Definition checkAllowed (s : session) (now : Time) (email : string) : bool :=
  negb (result (throttled now email s)).

(** Number of failures recorded for an identity: [len(s.tries[email])]. *)
Definition failures (s : session) (email : string) : nat :=
  length (triesOf s email).

Definition unitDelay : Duration := 2 * Second.

Definition maxIdle : Duration := 120 * Hour.

(** [loginDelay] called once at each instant of [ts], in order. *)
Definition recordFailures (email : string) (ts : list Time) (s : session) : session :=
  foldl (λ s' t, after (loginDelay t email s')) s ts.

(** *** Calls of the interface [Session] and the states they reach *)

Inductive call :=
  | CallAlreadyLoggedIn (cookie : option string)
  | CallClean
  | CallLogin (e : env) (email password : string)
  | CallLogout (admin : bool) (c : string).

Definition exec (now : Time) (c : call) (s : session) : session :=
  match c with
  | CallAlreadyLoggedIn cookie => after (AlreadyLoggedIn now cookie s)
  | CallClean => after (Clean now s)
  | CallLogin e email password => after (Login e now email password s)
  | CallLogout admin c => after (Logout now admin c s)
  end.

Inductive reachable : session → Prop :=
  | reachable_new now : reachable (NewSession now)
  | reachable_call now c s : reachable s → reachable (exec now c s).

(** An identity without recorded failure has no deadline. *)
Definition tidy (s : session) : Prop :=
  ∀ email, failures s email = 0%nat → delay s !! email = None.

(** An environment with one account, used to run [Login] on examples. *)
Definition exampleEnv : env :=
  mkEnv
    (λ email, if String.eqb email "a@x.com"
              then Some (mkUser "u1" "c1" "alice" "a@x.com" "hash") else None)
    (λ hash password, String.eqb password "secret")
    (λ n, "sid")
    (λ id, inl "jwt")
    [].

(** *** Lock discipline of a trace

    [guarded held l]: every access of [l] to a shared field happens while
    the mutex is held, [held] telling whether it is held at the start. *)
Fixpoint guarded (held : bool) (l : list event) : bool :=
  match l with
  | [] => true
  | EvLock :: l' => guarded true l'
  | EvUnlock :: l' => guarded false l'
  | (EvRead _ | EvWrite _) :: l' => held && guarded held l'
  | _ :: l' => guarded held l'
  end.

Definition isGo (ev : event) : bool :=
  match ev with EvGo => true | _ => false end.

(** Number of goroutines running [Clean] that a trace starts. *)
Definition sweepsStarted (l : list event) : nat :=
  length (List.filter isGo l).

(** ** The handler [CartAdd] *)

(** Go's [float32]: IEEE 754 binary32, 24 bits of precision. *)
Definition float32 := spec_float.

(** The conversion [float32(q)] of an [int], rounding to nearest even. *)
Definition float32_of_int (q : Z) : float32 := binary_normalize 24 128 q 0 false.

(** The comparison [x == 0] on [float32]. *)
Definition float32_is_zero (x : float32) : bool := SFeqb x (S754_zero false).

(** What the handler writes with [response.Error] and [response.JSON]. *)
Inductive response (Cart : Type) :=
  | ResponseError (status : Z) (msg : string)
  | ResponseJSON (status : Z) (cart : Cart).
Arguments ResponseError {Cart}.
Arguments ResponseJSON {Cart}.

Definition StatusOK : Z := 200.
Definition StatusBadRequest : Z := 400.

(** [CartAdd]. Outside the handler: [Decode], the JSON decoder applied to
    the request body (right: its error); [Atoi], Go's [strconv.Atoi],
    which returns a number together with its error, if any; [Add], the
    method [cart.Add] of package [shopping]. The result is the cart after
    the request and the responses written, in order. *)
Definition CartAdd {Cart Product : Type}
    (Decode : string → Product + string)
    (Atoi : string → Z * option string)
    (Add : Product → float32 → Cart → Cart)
    (cart : Cart) (body amount : string) : Cart * list (response Cart) :=
  match Decode body with
  | inr err => (cart, [ResponseError StatusBadRequest err])
  | inl product =>
      let '(q, err) := Atoi amount in
      let w1 := match err with
                | Some _ => [ResponseError StatusBadRequest
                               "Amount inserted is not valid, integers accepted only"]
                | None => []
                end in
      let quantity := float32_of_int q in
      if float32_is_zero quantity then
        (cart, w1 ++ [ResponseError StatusBadRequest "Please insert a valid amount"])
      else
        let cart' := Add product quantity cart in
        (cart', w1 ++ [ResponseJSON StatusOK cart'])
  end.

(** ** The cart aggregate *)

Module Shopping.

Local Open Scope Qc_scope.

(** Package [shopping] (the type [Cart] with its methods [Add], [Remove]
    and [Reset]) is not among the sources. The definitions of this
    module follow sections 3 and 4.3 of the design document. Quantities
    and amounts are [float32], the type of the quantity that [CartAdd]
    hands to [cart.Add]; every operation on them rounds to nearest even. *)

(** *** Arithmetic of [float32] *)

Definition fadd (x y : float32) : float32 := SFadd 24 128 x y.
Definition fsub (x y : float32) : float32 := SFsub 24 128 x y.
Definition fmul (x y : float32) : float32 := SFmul 24 128 x y.


(** The number a [float32] stands for: [(-1)^s * m * 2^e]; by convention
    zero for those that [isFinite] rejects. *)
Definition value (x : float32) : Qc :=
  match x with
  | S754_finite s m e => Q2Qc (inject_Z (cond_Zopp s (Z.pos m)) * Qpower 2 e)
  | _ => 0
  end.

(** An integer as a number. *)
Definition amount (z : Z) : Qc := Q2Qc (inject_Z z).



(** *** The cart *)

(** Modelled from the spec: the item handed to [add] (type
    [model.Product], missing): the product identity, its descriptive
    fields and the unit values supplied by the caller. *)
Record Item := mkItem {
  itemID : N;
  itemBrand : string;
  itemCategory : string;
  itemType : string;
  unitWeight : float32;
  unitSubtotal : float32;
  unitTax : float32;
  unitDiscount : float32;
  unitTotal : float32
}.

(** Modelled from the spec: the line [CartItem] of section 3 (missing
    from the sources): quantity and the fields scaled by it. *)
Record CartItem := mkCartItem {
  productID : N;
  brand : string;
  category : string;
  type : string;
  quantity : float32;
  weight : float32;
  subtotal : float32;
  tax : float32;
  discount : float32;
  total : float32
}.

(** Modelled from the spec: the type [Cart] of section 3 (package
    [shopping], missing): the items by product identity, the item
    counter and the aggregates; [grandTotal] is the aggregate called
    total. *)
Record Cart := mkCart {
  items : gmap N CartItem;
  counter : Z;
  totalWeight : float32;
  totalSubtotal : float32;
  totalTax : float32;
  totalDiscount : float32;
  grandTotal : float32
}.

(** Modelled from the spec: the errors of [add] and [remove] in section 7. *)
Inductive cartError := InvalidQuantityError | ItemNotFoundError.

(** Modelled from the spec: the line of [it] at quantity [q] (computed
    inside the missing [Cart.Add]); scaled fields are the unit value
    times the quantity. *)
Definition scaled (it : Item) (q : float32) : CartItem :=
  mkCartItem (itemID it) (itemBrand it) (itemCategory it) (itemType it) q
    (fmul (unitWeight it) q) (fmul (unitSubtotal it) q) (fmul (unitTax it) q)
    (fmul (unitDiscount it) q) (fmul (unitTotal it) q).

(** Modelled from the spec: the cart after [reset()] (method
    [Cart.Reset], missing), also the fresh cart. *)
Definition reset : Cart :=
  mkCart ∅ 0 (S754_zero false) (S754_zero false) (S754_zero false)
    (S754_zero false) (S754_zero false).

(** The two ways to read the delta contributed by a call of [add] for a
    product already in the cart: the change of the line, recomputed
    field minus replaced field, or the unit value times the quantity of
    the call. *)
Inductive deltaReading := LineChange | CallContribution.

(** Modelled from the spec: the delta of the field [f] that a call of
    [add] contributes (computed inside the missing [Cart.Add]), [old]
    being the line replaced and [new] the one recomputed. *)
Definition delta (r : deltaReading) (it : Item) (q : float32)
    (old new : CartItem) (f : CartItem → float32) : float32 :=
  match r with
  | LineChange => fsub (f new) (f old)
  | CallContribution => f (scaled it q)
  end.

(** Modelled from the spec: [add(item, quantity)] of section 4.3 (method
    [Cart.Add], missing). The aggregates are not recomputed: they move by
    the delta of the call, or by the fields of the line when the product
    is new. The counter counts distinct products. *)
Definition add (r : deltaReading) (it : Item) (q : float32) (c : Cart) : cartError + Cart :=
  if float32_is_zero q then inl InvalidQuantityError
  else
    match items c !! itemID it with
    | Some old =>
        let new := scaled it (fadd (quantity old) q) in
        let d := delta r it q old new in
        inr (mkCart (<[itemID it := new]> (items c)) (counter c)
               (fadd (totalWeight c) (d weight))
               (fadd (totalSubtotal c) (d subtotal))
               (fadd (totalTax c) (d tax))
               (fadd (totalDiscount c) (d discount))
               (fadd (grandTotal c) (d total)))
    | None =>
        let new := scaled it q in
        inr (mkCart (<[itemID it := new]> (items c)) (counter c + 1)%Z
               (fadd (totalWeight c) (weight new))
               (fadd (totalSubtotal c) (subtotal new))
               (fadd (totalTax c) (tax new))
               (fadd (totalDiscount c) (discount new))
               (fadd (grandTotal c) (total new)))
    end.

(** Modelled from the spec: [remove(productID)] of section 4.3 (method
    [Cart.Remove], missing). *)
Definition remove (id : N) (c : Cart) : cartError + Cart :=
  match items c !! id with
  | None => inl ItemNotFoundError
  | Some old =>
      inr (mkCart (delete id (items c)) (counter c - 1)%Z
             (fsub (totalWeight c) (weight old))
             (fsub (totalSubtotal c) (subtotal old))
             (fsub (totalTax c) (tax old))
             (fsub (totalDiscount c) (discount old))
             (fsub (grandTotal c) (total old)))
  end.

Inductive operation :=
  | OpAdd (it : Item) (q : float32)
  | OpRemove (id : N).

(** The cart after an operation; a failed operation leaves it as it is. *)
Definition perform (r : deltaReading) (o : operation) (c : Cart) : Cart :=
  match o with
  | OpAdd it q => match add r it q c with inr c' => c' | inl _ => c end
  | OpRemove id => match remove id c with inr c' => c' | inl _ => c end
  end.

(** The carts observed after each operation of a sequence. *)
Fixpoint observed (r : deltaReading) (ops : list operation) (c : Cart) : list Cart :=
  match ops with
  | [] => []
  | o :: ops' => perform r o c :: observed r ops' (perform r o c)
  end.

(** *** The invariant *)






(** *** Operations that round nothing off *)




(** *** Examples *)




(** The scenario of the design document: three pieces of weight 2 and
    total 10, two more of them, then the product removed. *)
Definition scenarioItem : Item :=
  mkItem 1 "" "" "" (float32_of_int 2) (float32_of_int 8) (float32_of_int 3)
    (float32_of_int 1) (float32_of_int 10).

Definition scenarioOps : list operation :=
  [OpAdd scenarioItem (float32_of_int 3);
   OpAdd scenarioItem (float32_of_int 2);
   OpRemove 1].

End Shopping.


(** ** Further vocabulary on calls and traces *)

(** The trace of a call of the interface. *)
Definition callTrace (now : Time) (c : call) (s : session) : list event :=
  match c with
  | CallAlreadyLoggedIn cookie => trace (AlreadyLoggedIn now cookie s)
  | CallClean => trace (Clean now s)
  | CallLogin e email password => trace (Login e now email password s)
  | CallLogout admin c => trace (Logout now admin c s)
  end.

(** The identity a call of [Login] is for. *)
Definition loginEmail (c : call) : option string :=
  match c with
  | CallLogin _ email _ => Some email
  | _ => None
  end.

(** The session token a call of [Login] draws. *)
Definition loginToken (c : call) : gset string :=
  match c with
  | CallLogin e _ _ => {[ GenerateRunes e 27 ]}
  | _ => ∅
  end.

(** Calls that delete from the store. *)
Definition removesSessions (c : call) : bool :=
  match c with
  | CallClean | CallLogout _ _ => true
  | _ => false
  end.

(** [mutexAlternates held l]: in [l] the mutex is locked only when free,
    unlocked only when held, and is free at the end; [held] tells
    whether it is held at the start. *)
Fixpoint mutexAlternates (held : bool) (l : list event) : bool :=
  match l with
  | [] => negb held
  | EvLock :: l' => negb held && mutexAlternates true l'
  | EvUnlock :: l' => held && mutexAlternates false l'
  | _ :: l' => mutexAlternates held l'
  end.

(** Name and value of the cookies a trace sets, in order. *)
Definition cookiesSet (l : list event) : list (string * string) :=
  omap (λ ev, match ev with
              | EvSetCookie name value _ _ => Some (name, value)
              | _ => None
              end) l.

(** Names of the cookies a trace deletes, in order. *)
Definition cookiesDeleted (l : list event) : list string :=
  omap (λ ev, match ev with
              | EvDeleteCookie name => Some name
              | _ => None
              end) l.

(** The [AID] cookies that the loop of [Login] over [AdminList] sets for
    the account [user]. *)
Definition adminCookies (e : env) (user : User) : list (string * string) :=
  omap (λ admin, if String.eqb admin (Email user)
                 then Some ("AID", GenerateRunes e 8) else None)
       (AdminList e).

(** The events of the loop of [Login] over [AdminList] for the account
    [user], with [len] the session length. *)
Definition adminEvents (e : env) (user : User) (len : Z) : list event :=
  omap (λ admin, if String.eqb admin (Email user)
                 then Some (EvSetCookie "AID" (GenerateRunes e 8) "/" len) else None)
       (AdminList e).

(** The events of [Login] once the credentials are verified. *)
Definition verifiedEvents (e : env) (user : User) (len : Z) : list event :=
  EvRead Fdelay :: adminEvents e user len ++
  [EvSetCookie "SID" (GenerateRunes e 27) "/" len;
   EvLock; EvWrite Fstore; EvWrite Ftries; EvWrite Fdelay; EvUnlock] ++
  match GenerateFixedJWT e (ID user) with
  | inl userID => [EvSetCookie "UID" userID "/" len;
                   EvSetCookie "CID" (CartID user) "/" len]
  | inr _ => []
  end.

(** ** The handler [CartRemove] *)

Definition StatusUnauthorized : Z := 401.
Definition StatusInternalServerError : Z := 500.

(** The conversion [uint(key)] of an [int], 64 bits wide. *)
Definition uint_of_int (key : Z) : Z := key mod 2 ^ 64.

(** [CartRemove]. Outside the handler: [Atoi] as for [CartAdd], and
    [Remove], the method [cart.Remove] of package [shopping], which
    gives the cart it leaves and its error, if any. *)
Definition CartRemove {Cart : Type}
    (Atoi : string → Z * option string)
    (Remove : Z → Cart → Cart * option string)
    (cart : Cart) (id : string) : Cart * list (response Cart) :=
  let '(key, err) := Atoi id in
  match err with
  | Some msg => (cart, [ResponseError StatusInternalServerError msg])
  | None =>
      let '(cart', err') := Remove (uint_of_int key) cart in
      let w1 := match err' with
                | Some msg => [ResponseError StatusBadRequest msg]
                | None => []
                end in
      (cart', w1 ++ [ResponseJSON StatusOK cart'])
  end.

(** ** The handler [Users.Delete] *)

(** What [Delete] consumes from outside: the parser of the signed
    identity token (left: the account id), the two email lists, the cart
    table and the deleting service. Each of the last four acts on a
    state [W] outside the session and gives its error, if any. *)
Record deleteDeps (W : Type) := mkDeleteDeps {
  ParseFixedJWT : string → string + string;
  pendingRemove : string → W → W * option string;
  validatedRemove : string → W → W * option string;
  DeleteCart : string → W → W * option string;
  DeleteUser : string → W → W * option string
}.
Arguments ParseFixedJWT {W}.
Arguments pendingRemove {W}.
Arguments validatedRemove {W}.
Arguments DeleteCart {W}.
Arguments DeleteUser {W}.

(** What [Delete] writes with [response.Error] and [response.HTMLText]. *)
Inductive reply :=
  | ReplyError (status : Z) (msg : string)
  | ReplyHTMLText (status : Z) (text : string).

(** [Users.Delete]; [id] is the URL parameter, [uID] the value of the
    request's cookie [UID] ([None] when [r.Cookie] returns an error, in
    which case [uID.Value] dereferences nil and the handler panics: the
    result is [None]). The variable [user] is declared and never
    assigned, so that [user.Email] and [user.CartID] are empty strings.
    The result is the reply, the session, the outside state and the
    trace of [Logout]. *)
Definition UsersDelete {W : Type} (d : deleteDeps W)
    (now : Time) (admin : bool) (id : string) (uID : option string)
    (s : session) (w : W) : option (reply * session * W * list event) :=
  match uID with
  | None => None
  | Some value =>
      match ParseFixedJWT d value with
      | inr err => Some (ReplyError StatusInternalServerError err, s, w, [])
      | inl userID =>
          if negb (String.eqb userID id) then
            Some (ReplyError StatusUnauthorized "not allowed to delete others user",
                  s, w, [])
          else
            let '(w1, err1) := pendingRemove d "" w in
            match err1 with
            | Some err => Some (ReplyError StatusInternalServerError err, s, w1, [])
            | None =>
            let '(w2, err2) := validatedRemove d "" w1 in
            match err2 with
            | Some err => Some (ReplyError StatusInternalServerError err, s, w2, [])
            | None =>
            let '(w3, err3) := DeleteCart d "" w2 in
            match err3 with
            | Some err => Some (ReplyError StatusInternalServerError err, s, w3, [])
            | None =>
            let '(w4, err4) := DeleteUser d id w3 in
            match err4 with
            | Some err => Some (ReplyError StatusInternalServerError err, s, w4, [])
            | None =>
                let r := Logout now admin value s in
                Some (ReplyHTMLText StatusOK "User deleted successfully.",
                      after r, w4, trace r)
            end end end end
      end
  end.

(** ** Package storage *)

(** [tableExists]. Outside the function: the database [D] behind
    [*gorm.DB] with its methods [AutoMigrate], [HasTable] and
    [CreateTable] (with the [Error] of its result). The result is the
    database left and the error returned. *)
Fixpoint tableExists {D Model : Type}
    (AutoMigrate : Model → D → D) (HasTable : Model → D → bool)
    (CreateTable : Model → D → D * option string)
    (models : list Model) (db : D) : D * option string :=
  match models with
  | [] => (db, None)
  | model :: models' =>
      let db1 := AutoMigrate model db in
      if negb (HasTable model db1) then
        let '(db2, err) := CreateTable model db1 in
        match err with
        | Some msg => (db2, Some msg)
        | None => tableExists AutoMigrate HasTable CreateTable models' db2
        end
      else tableExists AutoMigrate HasTable CreateTable models' db1
  end.

(** An identity has a deadline exactly when it has a slice of failures,
    and a stored slice is never empty. *)
Definition inStep (s : session) : Prop :=
  ∀ email,
    (is_Some (tries s !! email) ↔ is_Some (delay s !! email)) ∧
    (is_Some (tries s !! email) ↔ (0 < failures s email)%nat).
(** * Properties *)

(** ** Durations *)

Lemma wrap64_small (x : Z) : minDuration ≤ x ≤ maxDuration → wrap64 x = x.
Proof.
  unfold wrap64, minDuration, maxDuration. intros Hx.
  rewrite Z.mod_small; lia.
Qed.

Lemma Sub_pos (d now : Time) : (0 <? Sub d now) = (now <? d).
Proof.
  unfold Sub, minDuration, maxDuration.
  destruct (Z.ltb_spec now d); repeat case_match;
    rewrite ?Z.ltb_lt, ?Z.ltb_ge in *; lia.
Qed.

Lemma Sub_above (k : Duration) (t u : Time) :
  0 ≤ k < maxDuration → (k <? Sub t u) = (k <? t - u).
Proof.
  unfold Sub, minDuration, maxDuration. intros Hk.
  destruct (Z.ltb_spec k (t - u)); repeat case_match;
    rewrite ?Z.ltb_lt, ?Z.ltb_ge in *; lia.
Qed.

(** The product [time.Second * time.Duration(n * 2)] of [loginDelay], as
    long as it fits the type. *)
Lemma backoff_exact (n : Z) :
  0 ≤ n → n * unitDelay ≤ maxDuration →
  mul Second (wrap64 (n * 2)) = n * unitDelay.
Proof.
  unfold mul, unitDelay, Second, maxDuration. intros Hn Hmax.
  rewrite (wrap64_small (n * 2)) by (unfold minDuration, maxDuration; lia).
  rewrite wrap64_small by (unfold minDuration, maxDuration; lia). lia.
Qed.

(** ** Running the methods *)

Ltac run :=
  unfold mbind, M_bind, bind, mret, M_ret, ret, load, update, emit,
    Lock, Unlock, getLength, setCookie, deleteCookie,
    result, after, trace; cbn.

Lemma throttled_run (now : Time) (email : string) (s : session) :
  throttled now email s =
    (negb (IsZero (delayOf s email)) && (now <? delayOf s email), s, [EvRead Fdelay]).
Proof. unfold throttled. run. by rewrite Sub_pos. Qed.

Lemma checkAllowed_eq (s : session) (now : Time) (email : string) :
  checkAllowed s now email =
    negb (negb (IsZero (delayOf s email)) && (now <? delayOf s email)).
Proof. unfold checkAllowed. by rewrite throttled_run. Qed.

Lemma triesOf_insert (s : session) (email : string) (l : list unit) :
  triesOf (set_tries (insert email l) s) email = l.
Proof. unfold triesOf, set_tries; cbn. by rewrite lookup_insert_eq. Qed.

Lemma loginDelay_after (now : Time) (email : string) (s : session) :
  after (loginDelay now email s) =
    mkSession (store s) (cleaned s) (sessionLength s)
      (<[email := triesOf s email ++ [tt]]> (tries s))
      (<[email := Add now (mul Second (wrap64 (Z.of_nat (S (failures s email)) * 2)))]>
         (delay s)).
Proof.
  unfold loginDelay. run. rewrite triesOf_insert.
  unfold set_delay, set_tries, failures; cbn.
  rewrite length_app; cbn. by rewrite Nat.add_1_r.
Qed.

Lemma loginDelay_trace (now : Time) (email : string) (s : session) :
  trace (loginDelay now email s) =
    [EvLock; EvRead Ftries; EvWrite Ftries; EvRead Ftries; EvWrite Fdelay; EvUnlock].
Proof. reflexivity. Qed.

Lemma forRange_after {A} (xs : list A) (body : A → M unit) (s : session) :
  (∀ x s', after (body x s') = s') → after (forRange xs body s) = s.
Proof.
  intros Hbody. induction xs as [|x xs IH] in s |- *; [done|].
  cbn. unfold mbind, M_bind, bind.
  specialize (Hbody x s). destruct (body x s) as [[[] s1] l1] eqn:E.
  unfold after in *. cbn in *. subst s1.
  specialize (IH s). by destruct (forRange xs body s) as [[[] s2] l2].
Qed.

Lemma Login_wait e now email password s :
  checkAllowed s now email = false →
  Login e now email password s =
    (Some (errWait (Sub (delayOf s email) now)), s, [EvRead Fdelay; EvRead Fdelay]).
Proof.
  unfold checkAllowed. rewrite throttled_run. unfold result; cbn.
  intros H%negb_false_iff.
  unfold Login. unfold mbind, M_bind, bind. rewrite throttled_run, H. reflexivity.
Qed.

Lemma Login_unknown e now email password s :
  checkAllowed s now email = true → GetContext e email = None →
  Login e now email password s =
    (Some (errorsNew "invalid email or password"),
     after (loginDelay now email s), EvRead Fdelay :: trace (loginDelay now email s)).
Proof.
  unfold checkAllowed. rewrite throttled_run. unfold result; cbn.
  intros H%negb_true_iff Hdb.
  unfold Login. unfold mbind, M_bind, bind. rewrite throttled_run, H, Hdb. reflexivity.
Qed.

Lemma Login_wrong_password e now email password s user :
  checkAllowed s now email = true → GetContext e email = Some user →
  CompareHashAndPassword e (Password user) password = false →
  Login e now email password s =
    (Some (errorsNew "invalid email or password"),
     after (loginDelay now email s), EvRead Fdelay :: trace (loginDelay now email s)).
Proof.
  unfold checkAllowed. rewrite throttled_run. unfold result; cbn.
  intros H%negb_true_iff Hdb Hpw.
  unfold Login. unfold mbind, M_bind, bind. rewrite throttled_run, H, Hdb, Hpw. reflexivity.
Qed.

Lemma Login_verified e now email password s user :
  checkAllowed s now email = true → GetContext e email = Some user →
  CompareHashAndPassword e (Password user) password = true →
  after (Login e now email password s) =
    mkSession (<[GenerateRunes e 27 := mkUserData (Email user) now]> (store s))
      (cleaned s) (sessionLength s) (delete email (tries s)) (delete email (delay s)) ∧
  result (Login e now email password s) =
    match GenerateFixedJWT e (ID user) with
    | inl _ => None
    | inr err => Some (errorsWrap err "failed generating a jwt token")
    end.
Proof.
  unfold checkAllowed. rewrite throttled_run. unfold result; cbn.
  intros H%negb_true_iff Hdb Hpw.
  unfold Login. unfold mbind, M_bind, bind. rewrite throttled_run, H, Hdb, Hpw. cbn.
  match goal with
  | |- context [forRange ?l ?b s] =>
      pose proof (forRange_after l b s) as Hf;
      destruct (forRange l b s) as [[[] s1] l1]
  end.
  unfold after in Hf; cbn in Hf. rewrite Hf.
  2:{ intros x s'. case_match; reflexivity. }
  run. destruct (GenerateFixedJWT e (ID user)); cbn; done.
Qed.

(** ** The sweep *)

Lemma expired_iff (now : Time) (v : userData) :
  (120 * Hour <? Sub now (lastSeen v)) = (lastSeen v <? now - maxIdle).
Proof.
  rewrite Sub_above by (unfold Hour, Second, maxDuration; lia).
  unfold maxIdle. destruct (Z.ltb_spec (lastSeen v) (now - 120 * Hour));
    [apply Z.ltb_lt | apply Z.ltb_ge]; lia.
Qed.

Lemma forRange_cons {A} (x : A) (xs : list A) (body : A → M unit) (s : session) :
  forRange (x :: xs) body s =
    let '(_, s1, l1) := body x s in
    let '(b, s2, l2) := forRange xs body s1 in
    (b, s2, l1 ++ l2).
Proof. reflexivity. Qed.

Lemma sweepBody_run now kv s :
  sweepBody now kv s =
    if lastSeen kv.2 <? now - maxIdle
    then (tt, set_store (delete kv.1) s, [EvWrite Fstore])
    else (tt, s, []).
Proof. unfold sweepBody. rewrite expired_iff. by case_match. Qed.

Lemma sweep_fields now l s :
  let s' := after (forRange l (sweepBody now) s) in
  cleaned s' = cleaned s ∧ sessionLength s' = sessionLength s ∧
  tries s' = tries s ∧ delay s' = delay s.
Proof.
  induction l as [|kv l IH] in s |- *; [done|].
  rewrite forRange_cons, sweepBody_run.
  destruct (lastSeen kv.2 <? now - maxIdle).
  - specialize (IH (set_store (delete kv.1) s)).
    by destruct (forRange l _ (set_store _ s)) as [[[] s2] l2].
  - specialize (IH s). by destruct (forRange l _ s) as [[[] s2] l2].
Qed.

Lemma sweep_lookup now l s k :
  store (after (forRange l (sweepBody now) s)) !! k =
    if existsb (λ kv, bool_decide (kv.1 = k) && (lastSeen kv.2 <? now - maxIdle)) l
    then None else store s !! k.
Proof.
  induction l as [|[k' w'] l IH] in s |- *; [done|].
  rewrite forRange_cons, sweepBody_run. cbn [fst snd existsb].
  destruct (lastSeen w' <? now - maxIdle).
  - specialize (IH (set_store (delete k') s)).
    destruct (forRange l _ (set_store _ s)) as [[[] s2] l2].
    unfold after in *; cbn in *. rewrite IH. clear IH.
    rewrite andb_true_r. case_bool_decide as Hk; cbn.
    + subst k'. rewrite lookup_delete_eq. by case_match.
    + by rewrite lookup_delete_ne.
  - specialize (IH s). destruct (forRange l _ s) as [[[] s2] l2].
    unfold after in *; cbn in *. by rewrite IH, andb_false_r.
Qed.

Lemma Clean_lookup now s k :
  store (after (Clean now s)) !! k =
    match store s !! k with
    | Some v => if lastSeen v <? now - maxIdle then None else Some v
    | None => None
    end.
Proof.
  unfold Clean. unfold mbind, M_bind, bind, load.
  pose proof (sweep_lookup now (map_to_list (store s)) s k) as H.
  destruct (forRange _ _ s) as [[[] s2] l2]. unfold after in *; cbn in *.
  rewrite H. clear H.
  destruct (existsb _ _) eqn:Hex.
  - apply existsb_exists in Hex as ([k' w] & Hin & Hc). cbn in Hc.
    apply andb_true_iff in Hc as [Hk%bool_decide_eq_true Hw]. subst k'.
    apply list_elem_of_In, elem_of_map_to_list in Hin. by rewrite Hin, Hw.
  - destruct (store s !! k) as [v|] eqn:Hv; [|done].
    destruct (lastSeen v <? now - maxIdle) eqn:Hw; [|done].
    assert (existsb (λ kv, bool_decide (kv.1 = k) && (lastSeen kv.2 <? now - maxIdle))
              (map_to_list (store s)) = true) as Hex'; [|congruence].
    apply existsb_exists. exists (k, v). split.
    + by apply list_elem_of_In, elem_of_map_to_list.
    + cbn. by rewrite bool_decide_eq_true_2, Hw.
Qed.

Lemma Clean_fields now s :
  let s' := after (Clean now s) in
  cleaned s' = now ∧ sessionLength s' = sessionLength s ∧
  tries s' = tries s ∧ delay s' = delay s.
Proof.
  unfold Clean. unfold mbind, M_bind, bind, load.
  pose proof (sweep_fields now (map_to_list (store s)) s) as H.
  destruct (forRange _ _ s) as [[[] s2] l2]. unfold after in *; cbn in *.
  destruct H as (_ & H2 & H3 & H4). auto.
Qed.

(** A sweep at hour 121 over a session last seen at hour 0 and one last
    seen at hour 100: the first goes, the second stays. *)
Example scenario_sweep :
  let s := set_store (λ _, {[ "old" := mkUserData "a@x.com" 0;
                              "new" := mkUserData "b@x.com" (100 * Hour) ]})
             (NewSession 0) in
  map_to_list (store (after (Clean (121 * Hour) s))) =
    [("new", mkUserData "b@x.com" (100 * Hour))] ∧
  cleaned (after (Clean (121 * Hour) s)) = 121 * Hour.
Proof. vm_compute. done. Qed.

(** ** Session lookup and logout *)

Lemma AlreadyLoggedIn_run now token s :
  AlreadyLoggedIn now (Some token) s =
    match store s !! token with
    | Some user =>
        (true, set_store (insert token (mkUserData (email user) now)) s,
         [EvLock; EvRead Fstore; EvWrite Fstore; EvUnlock])
    | None => (false, s, [EvLock; EvRead Fstore; EvUnlock])
    end.
Proof. unfold AlreadyLoggedIn. run. by destruct (store s !! token). Qed.

Lemma Logout_after now admin c s :
  after (Logout now admin c s) = set_store (delete c) s.
Proof.
  unfold Logout. run.
  destruct admin; cbn; by destruct (30 * Second <? Sub now (cleaned s)).
Qed.

Lemma Logout_trace now admin c s :
  trace (Logout now admin c s) =
    (if admin then [EvDeleteCookie "AID"] else []) ++
    [EvDeleteCookie "SID"; EvDeleteCookie "UID"; EvDeleteCookie "CID";
     EvLock; EvWrite Fstore; EvUnlock; EvRead Fcleaned] ++
    (if 30 * Second <? Sub now (cleaned s) then [EvGo] else []).
Proof.
  unfold Logout. run.
  destruct admin; cbn; by destruct (30 * Second <? Sub now (cleaned s)).
Qed.

(** ** Reachable states *)

Lemma tidy_loginDelay now email s : tidy s → tidy (after (loginDelay now email s)).
Proof.
  intros Hs e. rewrite loginDelay_after. unfold failures, triesOf; cbn.
  destruct (decide (email = e)) as [->|Hne].
  - rewrite lookup_insert_eq; cbn. rewrite length_app; cbn. lia.
  - rewrite !lookup_insert_ne by done. apply Hs.
Qed.

Lemma tidy_Login e now email password s : tidy s → tidy (after (Login e now email password s)).
Proof.
  intros Hs.
  destruct (checkAllowed s now email) eqn:Hc.
  2:{ by rewrite Login_wait. }
  destruct (GetContext e email) as [user|] eqn:Hdb.
  2:{ rewrite Login_unknown by done. by apply tidy_loginDelay. }
  destruct (CompareHashAndPassword e (Password user) password) eqn:Hpw.
  2:{ rewrite (Login_wrong_password _ _ _ _ _ user) by done. by apply tidy_loginDelay. }
  destruct (Login_verified e now email password s user) as [-> _]; [done..|].
  intros e'. unfold failures, triesOf; cbn.
  destruct (decide (email = e')) as [->|Hne].
  - intros _. apply lookup_delete_eq.
  - rewrite !lookup_delete_ne by done. apply Hs.
Qed.

Lemma tidy_exec now c s : tidy s → tidy (exec now c s).
Proof.
  intros Hs. destruct c as [cookie| |e email password|admin c]; cbn.
  - destruct cookie as [token|]; [|done].
    rewrite AlreadyLoggedIn_run. by destruct (store s !! token).
  - intros e. pose proof (Clean_fields now s) as (_ & _ & Ht & Hd).
    unfold failures, triesOf. rewrite Ht, Hd. apply Hs.
  - by apply tidy_Login.
  - by rewrite Logout_after.
Qed.

Lemma reachable_tidy s : reachable s → tidy s.
Proof.
  induction 1 as [now|now c s _ IH].
  - intros e _. apply lookup_empty.
  - by apply tidy_exec.
Qed.

Lemma recordFailures_snoc email ts t s :
  recordFailures email (ts ++ [t]) s =
    after (loginDelay t email (recordFailures email ts s)).
Proof. unfold recordFailures. by rewrite foldl_app. Qed.

Lemma failures_loginDelay now email s :
  failures (after (loginDelay now email s)) email = S (failures s email).
Proof.
  unfold failures. rewrite loginDelay_after. unfold triesOf; cbn.
  rewrite lookup_insert_eq; cbn. rewrite length_app; cbn. lia.
Qed.

Lemma failures_recordFailures email ts s :
  failures (recordFailures email ts s) email = (failures s email + length ts)%nat.
Proof.
  induction ts as [|t ts IH] using rev_ind; [cbn; lia|].
  rewrite recordFailures_snoc, failures_loginDelay, IH, length_app. cbn. lia.
Qed.

Lemma delay_loginDelay now email s :
  delay (after (loginDelay now email s)) !! email =
    Some (Add now (mul Second (wrap64 (Z.of_nat (S (failures s email)) * 2)))).
Proof. rewrite loginDelay_after; cbn. by rewrite lookup_insert_eq. Qed.

(** The scenario of the design document: a first failure makes the
    identity wait two seconds, a second one four, and a login that
    succeeds lets it in at once. *)
Example scenario_backoff :
  let s1 := after (Login exampleEnv 100 "a@x.com" "guess" (NewSession 5)) in
  let s2 := after (Login exampleEnv (100 + 2 * Second) "a@x.com" "guess" s1) in
  let s3 := after (Login exampleEnv (100 + 6 * Second) "a@x.com" "secret" s2) in
  result (Login exampleEnv 100 "a@x.com" "secret" s1) = Some (errWait (2 * Second)) ∧
  result (Login exampleEnv (100 + 2 * Second) "a@x.com" "secret" s2)
    = Some (errWait (4 * Second)) ∧
  result (Login exampleEnv (100 + 6 * Second) "a@x.com" "secret" s2) = None ∧
  checkAllowed s3 (100 + 6 * Second) "a@x.com" = true.
Proof. vm_compute. done. Qed.

(** C2. An identity without recorded failure is always allowed; after
    [loginDelay] has run for it [n] times in a row, the last time at the
    instant [tn], [checkAllowed] fails exactly as long as less than
    [n * unitDelay] has elapsed since [tn], and succeeds from then on.
    The clock reads after the zero instant, and the product computed by
    [loginDelay] fits the type [Duration]. *)
Theorem throttle_linear_backoff (s : session) (email : string) (ts : list Time) (now : Time) :
  reachable s → failures s email = 0%nat →
  (∀ tn, last ts = Some tn → 0 < tn) →
  Z.of_nat (length ts) * unitDelay ≤ maxDuration →
  let s' := recordFailures email ts s in
  failures s' email = length ts ∧
  match last ts with
  | None => checkAllowed s' now email = true
  | Some tn =>
      checkAllowed s' now email = false ↔ now - tn < Z.of_nat (length ts) * unitDelay
  end.
Proof.
  intros Hr H0 Hclock Hfit s'. subst s'.
  split; [rewrite failures_recordFailures; lia|].
  destruct ts as [|t ts _] using rev_ind.
  - change (recordFailures email [] s) with s. cbn [last].
    rewrite checkAllowed_eq. unfold delayOf.
    by rewrite (reachable_tidy s Hr email H0).
  - rewrite last_snoc. specialize (Hclock t). rewrite last_snoc in Hclock.
    specialize (Hclock eq_refl).
    rewrite checkAllowed_eq, recordFailures_snoc. unfold delayOf.
    rewrite delay_loginDelay, failures_recordFailures, H0; cbn [default].
    rewrite length_app in *. cbn [length] in *.
    rewrite Nat.add_0_l.
    replace (S (length ts)) with (length ts + 1)%nat by lia.
    rewrite backoff_exact by lia.
    unfold Add, IsZero, id.
    rewrite negb_false_iff, andb_true_iff, negb_true_iff, Z.eqb_neq, Z.ltb_lt.
    assert (0 < Z.of_nat (length ts + 1) * unitDelay)
      by (unfold unitDelay, Second; lia).
    lia.
Qed.

Lemma throttle_linear_backoff_witness :
  failures (recordFailures "a@x.com" [10; 20] (NewSession 1)) "a@x.com" = 2%nat ∧
  (checkAllowed (recordFailures "a@x.com" [10; 20] (NewSession 1)) 25 "a@x.com" = false
   ↔ 25 - 20 < 2 * unitDelay).
Proof.
  apply (throttle_linear_backoff (NewSession 1) "a@x.com" [10; 20] 25).
  - apply reachable_new.
  - reflexivity.
  - intros tn [= <-]. lia.
  - vm_compute. discriminate.
Defined.

(** ** The claims on the session registry *)

(** C3. The sweep removes exactly the entries whose last activity is
    older than [now - maxIdle], with [maxIdle] the 120 hours of [Clean];
    every other entry stays as it is, and the throttle maps are not
    touched. *)
Theorem Clean_removes_exactly_expired (s : session) (now : Time) :
  store (after (Clean now s)) =
    filter (λ kv, ¬ lastSeen kv.2 < now - maxIdle) (store s) ∧
  tries (after (Clean now s)) = tries s ∧
  delay (after (Clean now s)) = delay s.
Proof.
  pose proof (Clean_fields now s) as (_ & _ & Ht & Hd).
  split; [|done]. apply map_eq. intros k. rewrite Clean_lookup.
  destruct (store s !! k) as [v|] eqn:Hv.
  - destruct (Z.ltb_spec (lastSeen v) (now - maxIdle)) as [Hlt|Hge]; symmetry.
    + apply map_lookup_filter_None. right. intros v' Hv' Hkeep. cbn in Hkeep.
      rewrite Hv in Hv'. injection Hv' as <-. lia.
    + apply map_lookup_filter_Some. split; [done|]. cbn. lia.
  - symmetry. apply map_lookup_filter_None. by left.
Qed.

(** C4. [Login] returns [nil] exactly when the guard passes, the account
    is found, the password matches and the token is signed. Such a login
    removes the entry of the identity, and no other entry, from [tries]
    and from [delay], whatever failures were recorded before: the
    identity is left with no failure count and no deadline, and the guard
    passes for it at every instant from then on. *)
Theorem Login_success_resets (e : env) (s : session) (now : Time) (email password : string) :
  let r := Login e now email password s in
  (result r = None ↔
     checkAllowed s now email = true ∧
     ∃ user, GetContext e email = Some user ∧
             CompareHashAndPassword e (Password user) password = true ∧
             ∃ userID, GenerateFixedJWT e (ID user) = inl userID) ∧
  (result r = None →
     tries (after r) = delete email (tries s) ∧
     delay (after r) = delete email (delay s) ∧
     tries (after r) !! email = None ∧ delay (after r) !! email = None ∧
     failures (after r) email = 0%nat ∧
     ∀ now', checkAllowed (after r) now' email = true).
Proof.
  cbn zeta.
  destruct (checkAllowed s now email) eqn:Hc.
  2:{ rewrite Login_wait by done. unfold result; cbn.
      split; [split; [done|by intros [? _]]|done]. }
  destruct (GetContext e email) as [user|] eqn:Hdb.
  2:{ rewrite Login_unknown by done. unfold result; cbn.
      split; [split; [done|by intros [_ (? & ? & _)]]|done]. }
  destruct (CompareHashAndPassword e (Password user) password) eqn:Hpw.
  2:{ rewrite (Login_wrong_password _ _ _ _ _ user) by done. unfold result; cbn.
      split; [split; [done|]|done].
      intros [_ (user' & Hu & Hpw' & _)]. congruence. }
  destruct (Login_verified e now email password s user) as [-> ->]; [done..|].
  split.
  - destruct (GenerateFixedJWT e (ID user)) as [userID|err] eqn:Hjwt.
    + split; [|done]. intros _. split; [done|]. exists user.
      split; [done|]. split; [done|]. by exists userID.
    + split; [done|]. intros [_ (user' & Hu & _ & userID & Hjwt')].
      congruence.
  - intros _.
    assert (delete email (delay s) !! email = None) as Hd by apply lookup_delete_eq.
    assert (delete email (tries s) !! email = None) as Ht by apply lookup_delete_eq.
    repeat split; cbn; try done.
    + unfold failures, triesOf; cbn. by rewrite Ht.
    + intros now'. rewrite checkAllowed_eq. unfold delayOf; cbn. by rewrite Hd.
Qed.

(** C5. [AlreadyLoggedIn] answers whether the token is in the store; when
    it is, the entry keeps its identity and gets [now] as last activity;
    nothing else changes. *)
Theorem AlreadyLoggedIn_refreshes (s : session) (now : Time) (token : string) :
  let r := AlreadyLoggedIn now (Some token) s in
  result r = bool_decide (is_Some (store s !! token)) ∧
  after r = set_store (alter (λ user, mkUserData (email user) now) token) s ∧
  store (after r) !! token = (λ user, mkUserData (email user) now) <$> store s !! token ∧
  delete token (store (after r)) = delete token (store s).
Proof.
  cbn zeta. rewrite AlreadyLoggedIn_run.
  destruct (store s !! token) as [user|] eqn:Hu; unfold result, after; cbn.
  - split; [done|]. split.
    + unfold set_store. f_equal. apply map_eq. intros k.
      destruct (decide (token = k)) as [->|Hne].
      * by rewrite lookup_insert_eq, lookup_alter_eq, Hu.
      * by rewrite lookup_insert_ne, lookup_alter_ne.
    + split; [by rewrite lookup_insert_eq|]. apply delete_insert_eq.
  - split; [done|]. split; [|done].
    destruct s; unfold set_store; cbn in *. f_equal. symmetry.
    apply map_eq. intros k. destruct (decide (token = k)) as [->|Hne].
    + by rewrite lookup_alter_eq, Hu.
    + by rewrite lookup_alter_ne.
Qed.

(** C6. [Logout] leaves no entry for the token and changes nothing else;
    on a store without the token it changes nothing at all; a second
    [Logout] of the same token changes nothing more. *)
Theorem Logout_destroys (s : session) (now now' : Time) (admin admin' : bool) (token : string) :
  let s' := after (Logout now admin token s) in
  s' = set_store (delete token) s ∧
  store s' !! token = None ∧
  (store s !! token = None → s' = s) ∧
  after (Logout now' admin' token s') = s'.
Proof.
  cbn zeta. rewrite !Logout_after. unfold set_store; cbn.
  split; [done|]. split; [apply lookup_delete_eq|]. split.
  - intros Hnone. destruct s; cbn in *. f_equal. by apply delete_id.
  - f_equal. apply delete_delete_eq.
Qed.

Lemma Login_success_resets_witness :
  failures (after (Login exampleEnv 100 "a@x.com" "guess" (NewSession 5))) "a@x.com" = 1%nat ∧
  delay (after (Login exampleEnv 100 "a@x.com" "guess" (NewSession 5))) !! "a@x.com"
    = Some 2000000100 ∧
  result (Login exampleEnv 2000000100 "a@x.com" "secret"
            (after (Login exampleEnv 100 "a@x.com" "guess" (NewSession 5)))) = None ∧
  failures (after (Login exampleEnv 2000000100 "a@x.com" "secret"
              (after (Login exampleEnv 100 "a@x.com" "guess" (NewSession 5)))))
    "a@x.com" = 0%nat ∧
  delay (after (Login exampleEnv 2000000100 "a@x.com" "secret"
           (after (Login exampleEnv 100 "a@x.com" "guess" (NewSession 5)))))
    !! "a@x.com" = None.
Proof.
  destruct (Login_success_resets exampleEnv
              (after (Login exampleEnv 100 "a@x.com" "guess" (NewSession 5)))
              2000000100 "a@x.com" "secret") as [Hnil Hreset].
  assert (result (Login exampleEnv 2000000100 "a@x.com" "secret"
            (after (Login exampleEnv 100 "a@x.com" "guess" (NewSession 5)))) = None)
    as Hok.
  { apply Hnil. split; [reflexivity|].
    exists (mkUser "u1" "c1" "alice" "a@x.com" "hash").
    split; [reflexivity|]. split; [reflexivity|]. exists "jwt". reflexivity. }
  destruct (Hreset Hok) as (_ & _ & _ & Hd & Hf & _).
  split; [reflexivity|]. split; [reflexivity|]. split; [exact Hok|].
  split; [exact Hf|exact Hd].
Defined.

Lemma Logout_destroys_witness :
  after (Logout 40 false "sid" (NewSession 5)) = NewSession 5.
Proof.
  destruct (Logout_destroys (NewSession 5) 40 40 false false "sid")
    as (_ & _ & Hnoop & _).
  apply Hnoop. reflexivity.
Defined.

(** C7. A login that fails because the identity is unknown and a login
    that fails because the secret is wrong return the same error, with
    the same message; from the same state, at the same instant and for
    the same identity, the two calls have the same outcome altogether. *)
Theorem Login_failures_indistinguishable
    (e1 e2 : env) (s1 s2 : session) (now1 now2 : Time)
    (email1 email2 password1 password2 : string) (user : User) :
  checkAllowed s1 now1 email1 = true →
  GetContext e1 email1 = None →
  checkAllowed s2 now2 email2 = true →
  GetContext e2 email2 = Some user →
  CompareHashAndPassword e2 (Password user) password2 = false →
  let r1 := Login e1 now1 email1 password1 s1 in
  let r2 := Login e2 now2 email2 password2 s2 in
  result r1 = Some (errorsNew "invalid email or password") ∧
  result r2 = result r1 ∧
  Error <$> result r2 = Error <$> result r1 ∧
  (s1 = s2 → now1 = now2 → email1 = email2 → r1 = r2).
Proof.
  intros Hc1 Hdb1 Hc2 Hdb2 Hpw r1 r2. subst r1 r2.
  rewrite Login_unknown by done.
  rewrite (Login_wrong_password _ _ _ _ _ user) by done.
  repeat split. by intros -> -> ->.
Qed.

Lemma Login_failures_indistinguishable_witness :
  result (Login exampleEnv 100 "a@x.com" "guess" (NewSession 5)) =
  result (Login exampleEnv 100 "b@x.com" "guess" (NewSession 5)).
Proof.
  apply (Login_failures_indistinguishable exampleEnv exampleEnv
           (NewSession 5) (NewSession 5) 100 100 "b@x.com" "a@x.com" "guess" "guess"
           (mkUser "u1" "c1" "alice" "a@x.com" "hash")); reflexivity.
Defined.

(** C10. While the deadline stored for an identity lies in the future,
    [Login] returns the wait error and the session is exactly as before:
    the call only reads the deadline. The clock reads after the zero
    instant. *)
Theorem Login_throttled_unchanged
    (e : env) (s : session) (now deadline : Time) (email password : string) :
  delay s !! email = Some deadline → now < deadline → 0 < now →
  let r := Login e now email password s in
  result r = Some (errWait (Sub deadline now)) ∧
  after r = s ∧
  trace r = [EvRead Fdelay; EvRead Fdelay].
Proof.
  intros Hd Hlt Hclock r. subst r.
  assert (delayOf s email = deadline) as Hdl by (unfold delayOf; by rewrite Hd).
  rewrite Login_wait; [by rewrite Hdl|].
  rewrite checkAllowed_eq, Hdl. unfold IsZero.
  apply negb_false_iff, andb_true_iff. split.
  - apply negb_true_iff, Z.eqb_neq. lia.
  - by apply Z.ltb_lt.
Qed.

Lemma Login_throttled_unchanged_witness :
  after (Login exampleEnv 200 "a@x.com" "secret"
           (after (Login exampleEnv 100 "a@x.com" "guess" (NewSession 5)))) =
  after (Login exampleEnv 100 "a@x.com" "guess" (NewSession 5)).
Proof.
  apply (Login_throttled_unchanged exampleEnv
           (after (Login exampleEnv 100 "a@x.com" "guess" (NewSession 5)))
           200 2000000100 "a@x.com" "secret").
  - reflexivity.
  - lia.
  - lia.
Defined.

(** ** Locking *)

Lemma sweep_trace now l s :
  Forall (λ ev, ev = EvWrite Fstore) (trace (forRange l (sweepBody now) s)).
Proof.
  induction l as [|kv l IH] in s |- *; [by constructor|].
  rewrite forRange_cons, sweepBody_run.
  destruct (lastSeen kv.2 <? now - maxIdle).
  - specialize (IH (set_store (delete kv.1) s)).
    destruct (forRange l _ (set_store _ s)) as [[[] s2] l2]. by constructor.
  - specialize (IH s). by destruct (forRange l _ s) as [[[] s2] l2].
Qed.

Lemma Clean_trace now s :
  ∃ l, trace (Clean now s) = EvRead Fstore :: l ++ [EvWrite Fcleaned] ∧
       Forall (λ ev, ev = EvWrite Fstore) l.
Proof.
  unfold Clean. unfold mbind, M_bind, bind, load, update.
  pose proof (sweep_trace now (map_to_list (store s)) s) as H.
  destruct (forRange _ _ s) as [[[] s2] l2]. unfold trace in *; cbn in *.
  by exists l2.
Qed.

Lemma trace_bind {A B} (m : M A) (k : A → M B) (s : session) :
  trace (bind m k s) = trace (m s) ++ trace (k (result (m s)) (after (m s))).
Proof.
  unfold bind, trace, result, after.
  destruct (m s) as [[a s1] l1]; cbn. by destruct (k a s1) as [[b s2] l2].
Qed.

Lemma Login_trace_head e now email password s :
  ∃ l, trace (Login e now email password s) = EvRead Fdelay :: l.
Proof.
  unfold Login, mbind, M_bind. rewrite trace_bind, throttled_run.
  eexists. reflexivity.
Qed.

(** C9. [Clean] never takes the mutex although it reads and writes the
    store and writes [cleaned]; [Logout] reads [cleaned] after it has
    released the mutex and [Login] reads [delay] before it takes it,
    while [AlreadyLoggedIn] does hold it around its accesses. Two calls
    of [Logout] made before a started sweep has run both start one, so
    that two sweeps are in flight. *)
Theorem Clean_takes_no_lock
    (e : env) (s : session) (now : Time) (admin : bool) (c1 c2 email password : string) :
  (EvLock ∉ trace (Clean now s)) ∧
  EvWrite Fcleaned ∈ trace (Clean now s) ∧
  guarded false (trace (Clean now s)) = false ∧
  guarded false (trace (Logout now admin c1 s)) = false ∧
  guarded false (trace (Login e now email password s)) = false ∧
  guarded false (trace (AlreadyLoggedIn now (Some c1) s)) = true ∧
  (let late := cleaned s + 31 * Second in
   let r1 := Logout late admin c1 s in
   let r2 := Logout late admin c2 (after r1) in
   sweepsStarted (trace r1 ++ trace r2) = 2%nat).
Proof.
  destruct (Clean_trace now s) as (l & -> & Hl).
  split; [|split; [|split; [|split; [|split; [|split]]]]].
  - rewrite not_elem_of_cons, not_elem_of_app. split_and!; [done| |].
    + intros Hin. rewrite Forall_forall in Hl. by specialize (Hl _ Hin).
    + by intros [=]%list_elem_of_singleton.
  - set_solver.
  - reflexivity.
  - rewrite Logout_trace. destruct admin, (30 * Second <? _); reflexivity.
  - by destruct (Login_trace_head e now email password s) as [l' ->].
  - rewrite AlreadyLoggedIn_run. by destruct (store s !! c1).
  - cbn zeta. rewrite !Logout_trace, Logout_after. cbn [cleaned set_store].
    rewrite Sub_above by (unfold Second, maxDuration; lia).
    replace (30 * Second <? cleaned s + 31 * Second - cleaned s) with true
      by (symmetry; apply Z.ltb_lt; unfold Second; lia).
    by destruct admin.
Qed.

(** ** Conversion of integers to [float32] *)

Lemma shr_1_half (mrs : shr_record) :
  0 ≤ shr_m mrs → shr_m (shr_1 mrs) = shr_m mrs / 2.
Proof.
  destruct mrs as [m r s]; cbn [shr_m]. intros Hm.
  destruct m as [|[p|p|]|p]; unfold shr_1; cbn [shr_m]; try done.
  - rewrite (Pos2Z.inj_xI p). apply Z.div_unique with 1; lia.
  - rewrite (Pos2Z.inj_xO p). apply Z.div_unique with 0; lia.
Qed.

Lemma iter_pos_ladder {A} (f : A → A) (R : Z → A → Prop) :
  (∀ k x, 0 ≤ k → R k x → R (k + 1) (f x)) →
  ∀ n k x, 0 ≤ k → R k x → R (k + Z.pos n) (SpecFloat.iter_pos f n x).
Proof.
  intros Hstep. induction n as [n IH|n IH|]; intros k x Hk Hx; cbn [SpecFloat.iter_pos].
  - replace (k + Z.pos n~1) with (k + 1 + Z.pos n + Z.pos n) by lia.
    apply IH; [lia|]. apply IH; [lia|]. by apply Hstep.
  - replace (k + Z.pos n~0) with (k + Z.pos n + Z.pos n) by lia.
    apply IH; [lia|]. by apply IH.
  - by apply Hstep.
Qed.

Lemma iter_shr_1 (n : positive) (mrs : shr_record) :
  0 ≤ shr_m mrs → shr_m (SpecFloat.iter_pos shr_1 n mrs) = shr_m mrs / 2 ^ Z.pos n.
Proof.
  intros Hm.
  assert (∀ k x, 0 ≤ k → shr_m x = shr_m mrs / 2 ^ k →
                 shr_m (shr_1 x) = shr_m mrs / 2 ^ (k + 1)) as Hstep.
  { intros k x Hk Hx. rewrite shr_1_half.
    - rewrite Hx, Z.pow_add_r, Z.pow_1_r, Z.div_div by lia. done.
    - rewrite Hx. apply Z.div_pos; lia. }
  apply (iter_pos_ladder shr_1 (λ k x, shr_m x = shr_m mrs / 2 ^ k) Hstep n 0 mrs);
    [lia|by rewrite Z.div_1_r].
Qed.

Lemma digits2_pos_lower (p : positive) : 2 ^ (Z.pos (digits2_pos p) - 1) ≤ Z.pos p.
Proof.
  induction p as [p IH|p IH|]; cbn [digits2_pos]; [| |done].
  - rewrite Pos2Z.inj_succ, (Pos2Z.inj_xI p).
    replace (Z.succ (Z.pos (digits2_pos p)) - 1) with (Z.pos (digits2_pos p) - 1 + 1) by lia.
    rewrite Z.pow_add_r, Z.pow_1_r by lia.
    revert IH. generalize (2 ^ (Z.pos (digits2_pos p) - 1)). lia.
  - rewrite Pos2Z.inj_succ, (Pos2Z.inj_xO p).
    replace (Z.succ (Z.pos (digits2_pos p)) - 1) with (Z.pos (digits2_pos p) - 1 + 1) by lia.
    rewrite Z.pow_add_r, Z.pow_1_r by lia.
    revert IH. generalize (2 ^ (Z.pos (digits2_pos p) - 1)). lia.
Qed.

Section Rounding.
Variables prec emax : Z.
Hypothesis prec_pos : 0 < prec.
Hypothesis emin_nonpos : emin prec emax ≤ 0.

(** Shifting a positive mantissa to its format keeps it positive as
    long as the exponent is not below the smallest one. *)
Lemma shr_fexp_positive (m e : Z) (l : location) :
  0 < m → emin prec emax ≤ e →
  0 < shr_m (shr_fexp prec emax m e l).1 ∧ emin prec emax ≤ (shr_fexp prec emax m e l).2.
Proof.
  intros Hm He. unfold shr_fexp, shr, fexp.
  assert (shr_m (shr_record_of_loc m l) = m) as Hrec by by destruct l as [|[]].
  destruct m as [|p|p]; [lia| |lia]. cbn [Zdigits2].
  destruct (Z.max _ _ - e) as [|n|n] eqn:Hn; cbn [fst snd]; rewrite ?Hrec; try done.
  split; [|lia]. rewrite iter_shr_1 by (rewrite Hrec; lia). rewrite Hrec.
  pose proof (digits2_pos_lower p) as Hlow.
  assert (Z.pos n ≤ Z.pos (digits2_pos p) - 1) as Hle by lia.
  apply Z.div_str_pos. split; [lia|].
  etrans; [|exact Hlow]. apply Z.pow_le_mono_r; lia.
Qed.

Lemma round_nearest_even_ge (m : Z) (l : location) : m ≤ round_nearest_even m l.
Proof. destruct l as [|[]]; cbn; try lia. destruct (Z.even m); lia. Qed.

Lemma binary_round_aux_nonzero (sx : bool) (m e : Z) (l : location) :
  0 < m → emin prec emax ≤ e →
  SFeqb (binary_round_aux prec emax sx m e l) (S754_zero false) = false.
Proof.
  intros Hm He. unfold binary_round_aux.
  pose proof (shr_fexp_positive m e l Hm He) as [Hm1 He1].
  destruct (shr_fexp prec emax m e l) as [mrs1 e1]; cbn [fst snd] in *.
  pose proof (round_nearest_even_ge (shr_m mrs1) (loc_of_shr_record mrs1)) as Hr.
  pose proof (shr_fexp_positive (round_nearest_even (shr_m mrs1) (loc_of_shr_record mrs1))
                e1 loc_Exact ltac:(lia) He1) as [Hm2 _].
  destruct (shr_fexp prec emax _ e1 loc_Exact) as [mrs2 e2]; cbn [fst snd] in *.
  destruct (shr_m mrs2) as [|p|p]; [lia| |lia].
  by destruct (e2 <=? emax - prec), sx.
Qed.

Lemma binary_normalize_nonzero (q : Z) :
  q ≠ 0 → SFeqb (binary_normalize prec emax q 0 false) (S754_zero false) = false.
Proof.
  intros Hq.
  assert (∀ sx p, SFeqb (binary_round prec emax sx p 0) (S754_zero false) = false) as Hround.
  { intros sx p. unfold binary_round, shl_align.
    assert (emin prec emax ≤ fexp prec emax (Z.pos (digits2_pos p) + 0))
      by (unfold fexp; lia).
    destruct (fexp prec emax _ - 0) as [|d|d] eqn:Hd;
      apply binary_round_aux_nonzero; unfold emin in *; lia. }
  destruct q as [|p|p]; [done|apply Hround..].
Qed.
End Rounding.

(** The test [float32(q) == 0] of the handler is the test [q == 0]. *)
Lemma float32_of_int_is_zero (q : Z) :
  float32_is_zero (float32_of_int q) = (q =? 0).
Proof.
  destruct (Z.eqb_spec q 0) as [->|Hq]; [done|].
  by apply binary_normalize_nonzero.
Qed.

(** ** The handler [CartAdd] *)

(** C8. Once the body is decoded, a zero quantity makes [CartAdd] answer
    with the error of the quantity check and leave the cart as it is;
    any other quantity passes the check, and the cart is the one
    [cart.Add] produces. The quantity is zero exactly when the number
    read from the request is. *)
Theorem CartAdd_quantity_check {Cart Product : Type}
    (Decode : string → Product + string) (Atoi : string → Z * option string)
    (Add : Product → float32 → Cart → Cart)
    (cart : Cart) (body amount : string) (product : Product) :
  Decode body = inl product →
  let quantity := float32_of_int (Atoi amount).1 in
  let r := CartAdd Decode Atoi Add cart body amount in
  float32_is_zero quantity = ((Atoi amount).1 =? 0) ∧
  r.1 = (if float32_is_zero quantity then cart else Add product quantity cart) ∧
  last r.2 =
    Some (if float32_is_zero quantity
          then ResponseError StatusBadRequest "Please insert a valid amount"
          else ResponseJSON StatusOK (Add product quantity cart)).
Proof.
  intros Hbody quantity r. subst quantity r.
  split; [apply float32_of_int_is_zero|].
  unfold CartAdd. rewrite Hbody.
  destruct (Atoi amount) as [q err]; cbn [fst].
  destruct (float32_is_zero (float32_of_int q)); cbn [fst snd];
    by rewrite last_snoc.
Qed.

Lemma CartAdd_quantity_check_witness :
  (CartAdd (λ _, inl 7%nat) (λ _, (0, None)) (λ p _ c, (p + c)%nat) 1%nat "{}" "0").1 = 1%nat ∧
  (CartAdd (λ _, inl 7%nat) (λ _, (3, None)) (λ p _ c, (p + c)%nat) 1%nat "{}" "3").1 = 8%nat.
Proof.
  split.
  - apply (proj2 (CartAdd_quantity_check (λ _, inl 7%nat) (λ _, (0, None))
                    (λ p _ c, (p + c)%nat) 1%nat "{}" "0" 7%nat eq_refl)).
  - apply (proj2 (CartAdd_quantity_check (λ _, inl 7%nat) (λ _, (3, None))
                    (λ p _ c, (p + c)%nat) 1%nat "{}" "3" 7%nat eq_refl)).
Defined.

(** ** The cart aggregate *)

Module ShoppingFacts.
Import Shopping.
Local Open Scope Qc_scope.




Section Sums.
Variable f : CartItem → float32.








End Sums.



(** The scenario of the design document: weight 6 and total 30 after the
    first call, nothing left after the removal, under either reading. *)
Lemma scenario_add_remove (r : deltaReading) :
  (λ c, (Z.of_nat (size (items c)), value (totalWeight c), value (grandTotal c)))
    <$> observed r scenarioOps reset
  = [(1%Z, amount 6, amount 30); (1%Z, amount 10, amount 50); (0%Z, amount 0, amount 0)].
Proof.
  destruct r; cbn [observed scenarioOps fmap list_fmap];
    repeat f_equal; first [by vm_compute | apply Qc_is_canon; by vm_compute].
Qed.




End ShoppingFacts.

(** * Further properties *)

(** ** Traces of [Login] *)

Lemma adminLoop_run (e : env) (user : User) (l : list string) (s : session) :
  forRange l (λ admin,
    if String.eqb admin (Email user)
    then len ← getLength; setCookie "AID" (GenerateRunes e 8) "/" len
    else mret tt) s =
  (tt, s, omap (λ admin, if String.eqb admin (Email user)
                 then Some (EvSetCookie "AID" (GenerateRunes e 8) "/" (sessionLength s))
                 else None) l).
Proof.
  match goal with |- forRange l ?b s = _ => set (body := b) end.
  induction l as [|admin l IH]; [done|].
  assert (body admin s =
            (tt, s, if String.eqb admin (Email user)
                    then [EvSetCookie "AID" (GenerateRunes e 8) "/" (sessionLength s)]
                    else [])) as Hbody
    by (unfold body; by destruct (String.eqb admin (Email user))).
  rewrite forRange_cons, Hbody, IH.
  destruct (String.eqb admin (Email user)) eqn:E; cbn; by rewrite E.
Qed.

Lemma Login_verified_run e now email password s user :
  checkAllowed s now email = true → GetContext e email = Some user →
  CompareHashAndPassword e (Password user) password = true →
  trace (Login e now email password s) = verifiedEvents e user (sessionLength s).
Proof.
  unfold checkAllowed. rewrite throttled_run. unfold result; cbn.
  intros H%negb_true_iff Hdb Hpw.
  unfold Login. unfold mbind, M_bind, bind. rewrite throttled_run, H, Hdb, Hpw. cbn.
  match goal with
  | |- context [forRange ?l ?b s] =>
      replace (forRange l b s) with (tt, s, adminEvents e user (sessionLength s))
        by (symmetry; apply adminLoop_run)
  end.
  unfold verifiedEvents.
  run. destruct (GenerateFixedJWT e (ID user)); cbn; by rewrite <-?app_assoc.
Qed.

(** ** Login, lookup and logout together *)

Lemma verified_after e now email password s user :
  checkAllowed s now email = true → GetContext e email = Some user →
  CompareHashAndPassword e (Password user) password = true →
  after (Login e now email password s) =
    mkSession (<[GenerateRunes e 27 := mkUserData (Email user) now]> (store s))
      (cleaned s) (sessionLength s) (delete email (tries s)) (delete email (delay s)).
Proof. intros. by destruct (Login_verified e now email password s user). Qed.

(** X1. Once the credentials are verified, the value of the cookie [SID]
    that [Login] sets is the key of the session it stores: presented at
    any later instant, [AlreadyLoggedIn] accepts it and finds the
    account's email, whatever was stored under that token before and
    whether or not the identity token could be signed afterwards. *)
Theorem Login_then_AlreadyLoggedIn
    (e : env) (s : session) (now later : Time) (email password : string) (user : User) :
  checkAllowed s now email = true →
  GetContext e email = Some user →
  CompareHashAndPassword e (Password user) password = true →
  let r := Login e now email password s in
  let sID := GenerateRunes e 27 in
  ("SID", sID) ∈ cookiesSet (trace r) ∧
  store (after r) !! sID = Some (mkUserData (Email user) now) ∧
  result (AlreadyLoggedIn later (Some sID) (after r)) = true ∧
  store (after (AlreadyLoggedIn later (Some sID) (after r))) !! sID
    = Some (mkUserData (Email user) later).
Proof.
  intros Hc Hdb Hpw r sID. subst r sID.
  rewrite (Login_verified_run _ _ _ _ _ user), (verified_after _ _ _ _ _ user) by done.
  split.
  { unfold verifiedEvents, cookiesSet. cbn [omap list_omap].
    rewrite omap_app. apply elem_of_app. right. cbn. left. }
  rewrite AlreadyLoggedIn_run. cbn [store].
  rewrite lookup_insert_eq. cbn. by rewrite lookup_insert_eq.
Qed.

Lemma Login_then_AlreadyLoggedIn_witness :
  result (AlreadyLoggedIn 900 (Some "sid")
            (after (Login exampleEnv 100 "a@x.com" "secret" (NewSession 5)))) = true.
Proof.
  apply (Login_then_AlreadyLoggedIn exampleEnv (NewSession 5) 100 900 "a@x.com" "secret"
           (mkUser "u1" "c1" "alice" "a@x.com" "hash")); reflexivity.
Defined.

(** X2. [Logout] with the token [Login] has drawn undoes the session:
    the token is no longer accepted, and when the token was not in use
    before the login the store is the one before the login. *)
Theorem Login_then_Logout
    (e : env) (s : session) (now later : Time) (admin : bool)
    (email password : string) (user : User) :
  checkAllowed s now email = true →
  GetContext e email = Some user →
  CompareHashAndPassword e (Password user) password = true →
  let sID := GenerateRunes e 27 in
  let s' := after (Logout later admin sID (after (Login e now email password s))) in
  result (AlreadyLoggedIn later (Some sID) s') = false ∧
  store s' = delete sID (store s) ∧
  (store s !! sID = None → store s' = store s).
Proof.
  intros Hc Hdb Hpw sID s'. subst sID s'.
  rewrite Logout_after, (verified_after _ _ _ _ _ user) by done.
  rewrite AlreadyLoggedIn_run. unfold set_store. cbn [store]. rewrite lookup_delete_eq.
  split; [done|]. rewrite delete_insert_eq. split; [done|].
  intros Hfresh. by apply delete_id.
Qed.

Lemma Login_then_Logout_witness :
  store (after (Logout 900 false "sid"
                  (after (Login exampleEnv 100 "a@x.com" "secret" (NewSession 5)))))
  = store (NewSession 5).
Proof.
  destruct (Login_then_Logout exampleEnv (NewSession 5) 100 900 false "a@x.com" "secret"
              (mkUser "u1" "c1" "alice" "a@x.com" "hash") eq_refl eq_refl eq_refl)
    as (_ & _ & Hfresh).
  apply Hfresh. reflexivity.
Defined.

(** ** Failed and half-done logins *)

Lemma after_mk {A} (a : A) (s : session) (l : list event) : after (a, s, l) = s.
Proof. reflexivity. Qed.

Lemma result_mk {A} (a : A) (s : session) (l : list event) : result (a, s, l) = a.
Proof. reflexivity. Qed.

Lemma trace_mk {A} (a : A) (s : session) (l : list event) : trace (a, s, l) = l.
Proof. reflexivity. Qed.

Lemma Login_rejected_run e now email password s :
  checkAllowed s now email = true →
  (GetContext e email = None ∨
   ∃ user, GetContext e email = Some user ∧
           CompareHashAndPassword e (Password user) password = false) →
  Login e now email password s =
    (Some (errorsNew "invalid email or password"),
     after (loginDelay now email s), EvRead Fdelay :: trace (loginDelay now email s)).
Proof.
  intros Hc [Hdb|(user & Hdb & Hpw)].
  - by apply Login_unknown.
  - by apply (Login_wrong_password _ _ _ _ _ user).
Qed.

(** X3. A login that is let through and fails on the credentials counts
    one failure for its identity and nothing else: the store and the
    time of the last sweep stay, the failure counts and deadlines of
    every other identity stay, and no cookie is set. *)
Theorem Login_failure_counts_once
    (e : env) (s : session) (now : Time) (email password other : string) :
  checkAllowed s now email = true →
  (GetContext e email = None ∨
   ∃ user, GetContext e email = Some user ∧
           CompareHashAndPassword e (Password user) password = false) →
  other ≠ email →
  let r := Login e now email password s in
  failures (after r) email = S (failures s email) ∧
  store (after r) = store s ∧ cleaned (after r) = cleaned s ∧
  tries (after r) !! other = tries s !! other ∧
  delay (after r) !! other = delay s !! other ∧
  cookiesSet (trace r) = [].
Proof.
  intros Hc Hbad Hne r. subst r.
  rewrite Login_rejected_run by done. rewrite !after_mk, trace_mk.
  rewrite failures_loginDelay, loginDelay_after, loginDelay_trace. cbn [store cleaned tries delay].
  by rewrite !lookup_insert_ne.
Qed.

Lemma Login_failure_counts_once_witness :
  failures (after (Login exampleEnv 100 "a@x.com" "guess" (NewSession 5))) "a@x.com"
  = 1%nat.
Proof.
  apply (Login_failure_counts_once exampleEnv (NewSession 5) 100 "a@x.com" "guess" "b@x.com").
  - reflexivity.
  - right. exists (mkUser "u1" "c1" "alice" "a@x.com" "hash"). split; reflexivity.
  - discriminate.
Defined.

(** X4. Through [Login] the deadline of an identity only moves forward:
    a failure is recorded only when the previous deadline has passed,
    and the new deadline lies after the instant of the failure, hence
    after the previous one. The clock reads after the zero instant and
    the backoff fits the type [Duration]. *)
Theorem Login_failure_extends_deadline
    (e : env) (s : session) (now : Time) (email password : string) :
  checkAllowed s now email = true →
  (GetContext e email = None ∨
   ∃ user, GetContext e email = Some user ∧
           CompareHashAndPassword e (Password user) password = false) →
  0 < now →
  Z.of_nat (S (failures s email)) * unitDelay ≤ maxDuration →
  let s' := after (Login e now email password s) in
  delay s' !! email = Some (now + Z.of_nat (S (failures s email)) * unitDelay) ∧
  delayOf s email < delayOf s' email ∧
  now < delayOf s' email ∧
  checkAllowed s' now email = false.
Proof.
  intros Hc Hbad Hclock Hfit s'. subst s'.
  rewrite Login_rejected_run by done. rewrite !after_mk.
  rewrite checkAllowed_eq in *. unfold delayOf at 2 3 4.
  clear Hbad. unfold delayOf at 2.
  rewrite !delay_loginDelay, !backoff_exact by lia. cbn [default]. unfold Add, id.
  assert (0 < Z.of_nat (S (failures s email)) * unitDelay)
    by (unfold unitDelay, Second; lia).
  apply negb_true_iff, andb_false_iff in Hc.
  rewrite negb_false_iff, Z.ltb_ge in Hc. unfold IsZero in *. rewrite Z.eqb_eq in Hc.
  split_and!; [done|lia|lia|].
  apply negb_false_iff, andb_true_iff. rewrite negb_true_iff, Z.eqb_neq, Z.ltb_lt. lia.
Qed.

Lemma Login_failure_extends_deadline_witness :
  delayOf (after (Login exampleEnv 100 "a@x.com" "guess" (NewSession 5))) "a@x.com" <
  delayOf (after (Login exampleEnv 3000000000 "a@x.com" "guess"
                    (after (Login exampleEnv 100 "a@x.com" "guess" (NewSession 5)))))
    "a@x.com".
Proof.
  apply (Login_failure_extends_deadline exampleEnv
           (after (Login exampleEnv 100 "a@x.com" "guess" (NewSession 5)))
           3000000000 "a@x.com" "guess").
  - reflexivity.
  - right. exists (mkUser "u1" "c1" "alice" "a@x.com" "hash"). split; reflexivity.
  - lia.
  - vm_compute. discriminate.
Defined.

Lemma cookiesSet_app (l1 l2 : list event) :
  cookiesSet (l1 ++ l2) = cookiesSet l1 ++ cookiesSet l2.
Proof. apply omap_app. Qed.

Lemma cookiesSet_admin (e : env) (user : User) (len : Z) :
  cookiesSet (adminEvents e user len) = adminCookies e user.
Proof.
  unfold cookiesSet, adminEvents, adminCookies.
  induction (AdminList e) as [|admin l IH]; [done|].
  cbn. destruct (String.eqb admin (Email user)); cbn; by rewrite IH.
Qed.

Lemma cookiesSet_verified (e : env) (user : User) (len : Z) :
  cookiesSet (verifiedEvents e user len) =
    adminCookies e user ++ ("SID", GenerateRunes e 27) ::
    match GenerateFixedJWT e (ID user) with
    | inl userID => [("UID", userID); ("CID", CartID user)]
    | inr _ => []
    end.
Proof.
  unfold verifiedEvents.
  change (EvRead Fdelay :: ?l) with ([EvRead Fdelay] ++ l).
  rewrite !cookiesSet_app, cookiesSet_admin.
  by destruct (GenerateFixedJWT e (ID user)).
Qed.

(** X5. When the credentials are verified and the identity token cannot
    be signed, [Login] returns the wrapped error, and yet the session is
    stored and accepted, the throttle of the identity is cleared and the
    cookie [SID] is set; the cookies [UID] and [CID] are not. *)
Theorem Login_jwt_failure_keeps_session
    (e : env) (s : session) (now later : Time)
    (email password : string) (user : User) (cause : string) :
  checkAllowed s now email = true →
  GetContext e email = Some user →
  CompareHashAndPassword e (Password user) password = true →
  GenerateFixedJWT e (ID user) = inr cause →
  let r := Login e now email password s in
  result r = Some (errorsWrap cause "failed generating a jwt token") ∧
  result (AlreadyLoggedIn later (Some (GenerateRunes e 27)) (after r)) = true ∧
  failures (after r) email = 0%nat ∧ delay (after r) !! email = None ∧
  cookiesSet (trace r) = adminCookies e user ++ [("SID", GenerateRunes e 27)].
Proof.
  intros Hc Hdb Hpw Hjwt r. subst r.
  destruct (Login_verified e now email password s user Hc Hdb Hpw) as [Hafter Hres].
  rewrite Hres, Hafter, (Login_verified_run _ _ _ _ _ user), Hjwt by done.
  rewrite AlreadyLoggedIn_run. cbn [store delay]. rewrite lookup_insert_eq.
  unfold failures, triesOf. cbn [tries]. rewrite !lookup_delete_eq.
  split_and!; try done.
  by rewrite cookiesSet_verified, Hjwt.
Qed.

Lemma Login_jwt_failure_keeps_session_witness :
  result (AlreadyLoggedIn 900 (Some "sid")
            (after (Login (mkEnv (GetContext exampleEnv)
                             (CompareHashAndPassword exampleEnv)
                             (GenerateRunes exampleEnv) (λ _, inr "no key") [])
                      100 "a@x.com" "secret" (NewSession 5)))) = true.
Proof.
  apply (Login_jwt_failure_keeps_session
           (mkEnv (GetContext exampleEnv) (CompareHashAndPassword exampleEnv)
              (GenerateRunes exampleEnv) (λ _, inr "no key") [])
           (NewSession 5) 100 900 "a@x.com" "secret"
           (mkUser "u1" "c1" "alice" "a@x.com" "hash") "no key"); reflexivity.
Defined.

(** ** Sweeps together with the other calls *)

(** X6. Sliding expiration: after [AlreadyLoggedIn] has accepted a token
    at the instant [seen], however old the session was, a sweep at the
    instant [now] keeps the session, with its email and [seen] as last
    activity, exactly when no more than 120 hours have passed since
    [seen]; otherwise it removes it. *)
Theorem refresh_survives_sweep
    (s : session) (seen now : Time) (token : string) (user : userData) :
  store s !! token = Some user →
  store (after (Clean now (after (AlreadyLoggedIn seen (Some token) s)))) !! token =
    if now - seen <=? maxIdle then Some (mkUserData (email user) seen) else None.
Proof.
  intros Hu. rewrite Clean_lookup, AlreadyLoggedIn_run, Hu, after_mk.
  unfold set_store. cbn [store]. rewrite lookup_insert_eq. cbn [lastSeen].
  destruct (Z.ltb_spec seen (now - maxIdle)), (Z.leb_spec (now - seen) maxIdle);
    done || lia.
Qed.

Lemma refresh_survives_sweep_witness :
  store (after (Clean (100 * Hour)
                  (after (AlreadyLoggedIn (50 * Hour) (Some "sid")
                            (after (Login exampleEnv 100 "a@x.com" "secret"
                                      (NewSession 5))))))) !! "sid"
  = Some (mkUserData "a@x.com" (50 * Hour)).
Proof.
  apply (refresh_survives_sweep
           (after (Login exampleEnv 100 "a@x.com" "secret" (NewSession 5)))
           (50 * Hour) (100 * Hour) "sid" (mkUserData "a@x.com" 100)).
  reflexivity.
Defined.

(** X7. Two sweeps in a row leave the store of a single sweep at the
    later of their two instants; in particular a sweep repeated at the
    same instant removes nothing more. *)
Theorem Clean_twice (s : session) (t1 t2 : Time) :
  store (after (Clean t2 (after (Clean t1 s)))) = store (after (Clean (Z.max t1 t2) s)) ∧
  cleaned (after (Clean t2 (after (Clean t1 s)))) = t2 ∧
  store (after (Clean t1 (after (Clean t1 s)))) = store (after (Clean t1 s)).
Proof.
  assert (∀ a b, store (after (Clean b (after (Clean a s))))
                 = store (after (Clean (Z.max a b) s))) as Hmax.
  { intros a b. apply map_eq. intros k. rewrite !Clean_lookup.
    destruct (store s !! k) as [v|]; [|done].
    destruct (Z.ltb_spec (lastSeen v) (a - maxIdle)),
             (Z.ltb_spec (lastSeen v) (Z.max a b - maxIdle)); try lia; try done.
    - destruct (Z.ltb_spec (lastSeen v) (b - maxIdle)); try lia; done.
    - destruct (Z.ltb_spec (lastSeen v) (b - maxIdle)); try lia; done. }
  split; [apply Hmax|]. split.
  - by destruct (Clean_fields t2 (after (Clean t1 s))) as [-> _].
  - by rewrite Hmax, Z.max_id.
Qed.

(** X8. A sweep and a logout can be swapped: either order leaves the
    same store, the sessions younger than 120 hours other than the one
    logged out. *)
Theorem Clean_Logout_commute
    (s : session) (now later : Time) (admin : bool) (token : string) :
  store (after (Clean now (after (Logout later admin token s)))) =
  store (after (Logout later admin token (after (Clean now s)))).
Proof.
  apply map_eq. intros k. rewrite !Logout_after, Clean_lookup.
  unfold set_store. cbn [store].
  destruct (decide (token = k)) as [->|Hne].
  - by rewrite !lookup_delete_eq.
  - by rewrite !lookup_delete_ne, Clean_lookup.
Qed.

Lemma sweepsStarted_Logout now admin c s :
  sweepsStarted (trace (Logout now admin c s)) =
    if 30 * Second <? now - cleaned s then 1%nat else 0%nat.
Proof.
  rewrite Logout_trace, Sub_above by (unfold Second, maxDuration; lia).
  by destruct admin, (30 * Second <? now - cleaned s).
Qed.

(** X9. [Logout] starts a sweep exactly when more than 30 seconds have
    passed since [cleaned], which only [Clean] moves: after a sweep at
    the instant [swept], a logout starts the next one only later than
    30 seconds after [swept], and logouts in between do not postpone it. *)
Theorem Logout_sweep_trigger
    (s : session) (now swept : Time) (admin admin' : bool) (c c' : string) :
  sweepsStarted (trace (Logout now admin c s)) =
    (if 30 * Second <? now - cleaned s then 1%nat else 0%nat) ∧
  cleaned (after (Logout now admin c s)) = cleaned s ∧
  sweepsStarted (trace (Logout now admin c (after (Clean swept s)))) =
    (if 30 * Second <? now - swept then 1%nat else 0%nat) ∧
  sweepsStarted
    (trace (Logout now admin c (after (Logout now admin' c' (after (Clean swept s)))))) =
    (if 30 * Second <? now - swept then 1%nat else 0%nat).
Proof.
  rewrite !sweepsStarted_Logout, !Logout_after. cbn [cleaned set_store].
  by destruct (Clean_fields swept s) as [-> _].
Qed.

(** ** What a call leaves alone *)

Lemma Login_after_cases e now email password s :
  after (Login e now email password s) = s ∨
  after (Login e now email password s) = after (loginDelay now email s) ∨
  ∃ user, after (Login e now email password s) =
    mkSession (<[GenerateRunes e 27 := mkUserData (Email user) now]> (store s))
      (cleaned s) (sessionLength s) (delete email (tries s)) (delete email (delay s)).
Proof.
  destruct (checkAllowed s now email) eqn:Hc.
  2:{ left. by rewrite Login_wait. }
  destruct (GetContext e email) as [user|] eqn:Hdb.
  2:{ right; left. by rewrite Login_unknown. }
  destruct (CompareHashAndPassword e (Password user) password) eqn:Hpw.
  2:{ right; left. by rewrite (Login_wrong_password _ _ _ _ _ user). }
  right; right. exists user. by apply verified_after.
Qed.

Lemma AlreadyLoggedIn_after now cookie s :
  after (AlreadyLoggedIn now cookie s) = s ∨
  ∃ token user, cookie = Some token ∧ store s !! token = Some user ∧
    after (AlreadyLoggedIn now cookie s)
    = set_store (insert token (mkUserData (email user) now)) s.
Proof.
  destruct cookie as [token|]; [|by left].
  rewrite AlreadyLoggedIn_run. destruct (store s !! token) as [user|] eqn:Hu.
  - right. by exists token, user.
  - by left.
Qed.

(** X10. Sessions are created by [Login] only and removed by [Clean] and
    [Logout] only: after any call the tokens in the store are among
    those before and the one a login draws, and a call of [Login] or
    [AlreadyLoggedIn] keeps every token that was there. *)
Theorem store_tokens_frame (now : Time) (c : call) (s : session) :
  dom (store (exec now c s)) ⊆ dom (store s) ∪ loginToken c ∧
  (removesSessions c = false → dom (store s) ⊆ dom (store (exec now c s))).
Proof.
  destruct c as [cookie| |e email password|admin c]; cbn [exec loginToken removesSessions].
  - destruct (AlreadyLoggedIn_after now cookie s) as [->|(token & user & _ & Hu & ->)];
      [set_solver|].
    unfold set_store. cbn [store]. rewrite dom_insert_L.
    apply (elem_of_dom_2 (store s)) in Hu. set_solver.
  - split; [|done]. intros k [v Hv]%elem_of_dom. rewrite Clean_lookup in Hv.
    apply elem_of_union_l, elem_of_dom. by destruct (store s !! k).
  - destruct (Login_after_cases e now email password s) as [->|[->|[user ->]]].
    + set_solver.
    + rewrite loginDelay_after. cbn [store]. set_solver.
    + cbn [store]. rewrite dom_insert_L. set_solver.
  - rewrite Logout_after. unfold set_store. cbn [store]. rewrite dom_delete_L.
    set_solver.
Qed.

Lemma store_tokens_frame_witness :
  dom (store (after (Login exampleEnv 100 "a@x.com" "secret" (NewSession 5)))) ⊆
  dom (store (exec 900 (CallAlreadyLoggedIn (Some "sid"))
                (after (Login exampleEnv 100 "a@x.com" "secret" (NewSession 5))))).
Proof.
  apply (store_tokens_frame 900 (CallAlreadyLoggedIn (Some "sid"))
           (after (Login exampleEnv 100 "a@x.com" "secret" (NewSession 5)))).
  reflexivity.
Defined.

(** X11. The throttle of an identity is moved by logins for that
    identity only: after any other call its failures and its deadline
    are the same, so it is allowed at the same instants as before. *)
Theorem throttle_frame (now : Time) (c : call) (s : session) (email : string) :
  loginEmail c ≠ Some email →
  tries (exec now c s) !! email = tries s !! email ∧
  delay (exec now c s) !! email = delay s !! email ∧
  ∀ t, checkAllowed (exec now c s) t email = checkAllowed s t email.
Proof.
  intros Hc.
  assert (tries (exec now c s) !! email = tries s !! email ∧
          delay (exec now c s) !! email = delay s !! email) as [Ht Hd].
  { destruct c as [cookie| |e email' password|admin c]; cbn [exec loginEmail] in *.
    - by destruct (AlreadyLoggedIn_after now cookie s) as [->|(? & ? & _ & _ & ->)].
    - by destruct (Clean_fields now s) as (_ & _ & -> & ->).
    - assert (email' ≠ email) by congruence.
      destruct (Login_after_cases e now email' password s) as [->|[->|[user ->]]];
        [done| |].
      + rewrite loginDelay_after. cbn [tries delay]. by rewrite !lookup_insert_ne.
      + cbn [tries delay]. by rewrite !lookup_delete_ne.
    - by rewrite Logout_after. }
  split_and!; [done..|].
  intros t. rewrite !checkAllowed_eq. unfold delayOf. by rewrite Hd.
Qed.

Lemma throttle_frame_witness :
  delay (exec 200 (CallLogin exampleEnv "b@x.com" "guess")
           (after (Login exampleEnv 100 "a@x.com" "guess" (NewSession 5)))) !! "a@x.com"
  = delay (after (Login exampleEnv 100 "a@x.com" "guess" (NewSession 5))) !! "a@x.com".
Proof.
  apply (throttle_frame 200 (CallLogin exampleEnv "b@x.com" "guess")
           (after (Login exampleEnv 100 "a@x.com" "guess" (NewSession 5))) "a@x.com").
  discriminate.
Defined.

(** ** Invariants of the reachable sessions *)

Lemma inStep_exec now c s : inStep s → inStep (exec now c s).
Proof.
  intros Hs. destruct c as [cookie| |e email password|admin c]; cbn [exec].
  - by destruct (AlreadyLoggedIn_after now cookie s) as [->|(? & ? & _ & _ & ->)].
  - intros em. destruct (Clean_fields now s) as (_ & _ & Ht & Hd).
    unfold failures, triesOf. rewrite Ht, Hd. apply Hs.
  - destruct (Login_after_cases e now email password s) as [->|[->|[user ->]]];
      [done| |]; intros em; specialize (Hs em); unfold failures, triesOf in *.
    + rewrite loginDelay_after. cbn [tries delay].
      destruct (decide (email = em)) as [->|Hne].
      * rewrite !lookup_insert_eq. cbn. rewrite length_app. cbn.
        split; split; intros _; first [by eexists | lia].
      * by rewrite !lookup_insert_ne.
    + cbn [tries delay]. destruct (decide (email = em)) as [->|Hne].
      * rewrite !lookup_delete_eq. cbn.
        split; split; intros H; first [lia | by apply is_Some_None in H].
      * by rewrite !lookup_delete_ne.
  - by rewrite Logout_after.
Qed.

(** X12. In every session reached from [NewSession] by calls of the
    interface, an identity has a deadline exactly when it has failures
    recorded, and no empty slice of failures is stored. *)
Theorem reachable_inStep (s : session) (email : string) :
  reachable s →
  (is_Some (tries s !! email) ↔ is_Some (delay s !! email)) ∧
  (is_Some (tries s !! email) ↔ (0 < failures s email)%nat).
Proof.
  intros Hr. revert email. change (inStep s).
  induction Hr as [now|now c s _ IH]; [|by apply inStep_exec].
  intros em. unfold failures, triesOf. cbn. rewrite !lookup_empty. cbn.
  split; split; intros H; first [lia | by apply is_Some_None in H].
Qed.

Lemma reachable_inStep_witness :
  is_Some (tries (exec 100 (CallLogin exampleEnv "a@x.com" "guess") (NewSession 5))
             !! "a@x.com") ↔
  is_Some (delay (exec 100 (CallLogin exampleEnv "a@x.com" "guess") (NewSession 5))
             !! "a@x.com").
Proof.
  apply (reachable_inStep
           (exec 100 (CallLogin exampleEnv "a@x.com" "guess") (NewSession 5)) "a@x.com").
  apply reachable_call, reachable_new.
Defined.

(** ** The mutex *)

Lemma mutexAlternates_quiet (held : bool) (l1 l2 : list event) :
  Forall (λ ev, ev ≠ EvLock ∧ ev ≠ EvUnlock) l1 →
  mutexAlternates held (l1 ++ l2) = mutexAlternates held l2.
Proof.
  induction 1 as [|ev l1 [H1 H2] _ IH]; [done|].
  destruct ev; cbn; congruence.
Qed.

Lemma adminEvents_quiet e user len :
  Forall (λ ev, ev ≠ EvLock ∧ ev ≠ EvUnlock) (adminEvents e user len).
Proof.
  unfold adminEvents. induction (AdminList e) as [|admin l IH]; [constructor|].
  cbn. destruct (String.eqb admin (Email user)); [constructor|]; done.
Qed.

(** X13. Every call of the interface takes the mutex only while it is
    free and has released it when it returns: no call locks twice, which
    would block it for ever, and none returns holding the lock. *)
Theorem mutex_alternates (now : Time) (c : call) (s : session) :
  mutexAlternates false (callTrace now c s) = true.
Proof.
  destruct c as [cookie| |e email password|admin c]; cbn [callTrace].
  - destruct cookie as [token|]; [|done].
    rewrite AlreadyLoggedIn_run. by destruct (store s !! token).
  - destruct (Clean_trace now s) as (l & -> & Hl).
    change (EvRead Fstore :: l ++ [EvWrite Fcleaned])
      with ((EvRead Fstore :: l) ++ [EvWrite Fcleaned]).
    rewrite mutexAlternates_quiet; [done|].
    constructor; [done|]. eapply Forall_impl; [exact Hl|]. by intros ev ->.
  - destruct (checkAllowed s now email) eqn:Hc.
    2:{ by rewrite Login_wait. }
    destruct (GetContext e email) as [user|] eqn:Hdb.
    2:{ by rewrite Login_unknown. }
    destruct (CompareHashAndPassword e (Password user) password) eqn:Hpw.
    2:{ by rewrite (Login_wrong_password _ _ _ _ _ user). }
    rewrite (Login_verified_run _ _ _ _ _ user) by done. unfold verifiedEvents.
    cbn [mutexAlternates]. rewrite mutexAlternates_quiet by apply adminEvents_quiet.
    by destruct (GenerateFixedJWT e (ID user)).
  - rewrite Logout_trace. by destruct admin, (30 * Second <? Sub now (cleaned s)).
Qed.

(** ** The cart handlers *)

(** X14. An amount that [Atoi] rejects does not stop [CartAdd]: the
    handler has written its error and goes on with the number [Atoi]
    returned. With the number zero it writes the error of the quantity
    check as well; with any other number (an amount out of range) it
    adds to the cart and writes the cart with status 200 after the
    error. *)
Theorem CartAdd_amount_error_goes_on {Cart Product : Type}
    (Decode : string → Product + string) (Atoi : string → Z * option string)
    (Add : Product → float32 → Cart → Cart)
    (cart : Cart) (body amount : string) (product : Product) (q : Z) (msg : string) :
  Decode body = inl product →
  Atoi amount = (q, Some msg) →
  CartAdd Decode Atoi Add cart body amount =
    if q =? 0 then
      (cart,
       [ResponseError StatusBadRequest "Amount inserted is not valid, integers accepted only";
        ResponseError StatusBadRequest "Please insert a valid amount"])
    else
      (Add product (float32_of_int q) cart,
       [ResponseError StatusBadRequest "Amount inserted is not valid, integers accepted only";
        ResponseJSON StatusOK (Add product (float32_of_int q) cart)]).
Proof.
  intros Hbody Hamount. unfold CartAdd. rewrite Hbody, Hamount.
  rewrite float32_of_int_is_zero. by destruct (q =? 0).
Qed.

Lemma CartAdd_amount_error_goes_on_witness :
  (CartAdd (λ _, inl 7%nat) (λ _, (2 ^ 63 - 1, Some "value out of range"))
     (λ p _ c, (p + c)%nat) 1%nat "{}" "99999999999999999999").1 = 8%nat.
Proof.
  rewrite (CartAdd_amount_error_goes_on (λ _, inl 7%nat)
             (λ _, (2 ^ 63 - 1, Some "value out of range"))
             (λ p _ c, (p + c)%nat) 1%nat "{}" "99999999999999999999" 7%nat
             (2 ^ 63 - 1) "value out of range" eq_refl eq_refl).
  reflexivity.
Defined.

Lemma uint_of_int_range (key : Z) : 0 ≤ uint_of_int key < 2 ^ 64.
Proof. unfold uint_of_int. apply Z.mod_pos_bound. lia. Qed.

Lemma uint_of_int_negative (key : Z) :
  - 2 ^ 63 ≤ key < 0 → uint_of_int key = key + 2 ^ 64.
Proof.
  intros Hk. unfold uint_of_int. symmetry.
  apply Z.mod_unique_pos with (-1); lia.
Qed.

(** X15. [CartRemove] answers an id that [Atoi] rejects with status 500
    and leaves the cart alone. Otherwise it hands [cart.Remove] the
    number as a [uint], a negative number [key] as [key + 2^64], and
    when [cart.Remove] fails it writes the error and then, all the
    same, the cart with status 200. *)
Theorem CartRemove_error_goes_on {Cart : Type}
    (Atoi : string → Z * option string) (Remove : Z → Cart → Cart * option string)
    (cart : Cart) (id : string) (key : Z) :
  (Atoi id).1 = key → - 2 ^ 63 ≤ key < 2 ^ 63 →
  let k := if key <? 0 then key + 2 ^ 64 else key in
  CartRemove Atoi Remove cart id =
    match (Atoi id).2 with
    | Some msg => (cart, [ResponseError StatusInternalServerError msg])
    | None =>
        match (Remove k cart).2 with
        | Some msg =>
            ((Remove k cart).1,
             [ResponseError StatusBadRequest msg; ResponseJSON StatusOK (Remove k cart).1])
        | None => ((Remove k cart).1, [ResponseJSON StatusOK (Remove k cart).1])
        end
    end.
Proof.
  intros Hkey Hrange k. unfold CartRemove.
  destruct (Atoi id) as [key' [msg|]]; cbn [fst snd] in *; [done|]. subst key'.
  assert (uint_of_int key = k) as ->.
  { subst k. destruct (Z.ltb_spec key 0).
    - apply uint_of_int_negative. lia.
    - unfold uint_of_int. apply Z.mod_small. lia. }
  by destruct (Remove k cart) as [cart' [msg|]].
Qed.

Lemma CartRemove_error_goes_on_witness :
  CartRemove (λ _, (-1, None)) (λ k c, (c, Some "item not found")) 5%nat "-1" =
  (5%nat, [ResponseError StatusBadRequest "item not found"; ResponseJSON StatusOK 5%nat]).
Proof.
  apply (CartRemove_error_goes_on (λ _, (-1, None)) (λ k c, (c, Some "item not found"))
           5%nat "-1" (-1) eq_refl).
  lia.
Defined.

(** ** The handler [Users.Delete] *)

Lemma UsersDelete_session {W : Type} (d : deleteDeps W) now admin id value s w rep s' w' tr :
  UsersDelete d now admin id (Some value) s w = Some (rep, s', w', tr) →
  s' = s ∨ s' = set_store (delete value) s.
Proof.
  unfold UsersDelete.
  destruct (ParseFixedJWT d value) as [userID|err]; [|intros [= _ <- _ _]; by left].
  destruct (negb (String.eqb userID id)); [intros [= _ <- _ _]; by left|].
  destruct (pendingRemove d "" w) as [w1 [err|]]; [intros [= _ <- _ _]; by left|].
  destruct (validatedRemove d "" w1) as [w2 [err|]]; [intros [= _ <- _ _]; by left|].
  destruct (DeleteCart d "" w2) as [w3 [err|]]; [intros [= _ <- _ _]; by left|].
  destruct (DeleteUser d id w3) as [w4 [err|]]; [intros [= _ <- _ _]; by left|].
  intros [= _ <- _ _]. right. apply Logout_after.
Qed.

(** X16. [Users.Delete] touches nothing unless the cookie [UID] parses
    to the id of the URL: otherwise it replies with status 500 or 401,
    and the session, the lists, the cart and the account are as before. *)
Theorem UsersDelete_gate {W : Type} (d : deleteDeps W)
    (now : Time) (admin : bool) (id value : string) (s : session) (w : W) :
  ParseFixedJWT d value ≠ inl id →
  ∃ status msg,
    UsersDelete d now admin id (Some value) s w = Some (ReplyError status msg, s, w, []) ∧
    (status = StatusInternalServerError ∨ status = StatusUnauthorized).
Proof.
  intros Hgate. unfold UsersDelete.
  destruct (ParseFixedJWT d value) as [userID|err]; [|by eauto].
  destruct (String.eqb_spec userID id) as [->|Hne]; [done|]. cbn. by eauto.
Qed.

Lemma UsersDelete_gate_witness :
  ∃ status msg,
    UsersDelete (mkDeleteDeps unit (λ v, inl v) (λ _ w, (w, None)) (λ _ w, (w, None))
                   (λ _ w, (w, None)) (λ _ w, (w, None)))
      900 false "u1" (Some "u2") (NewSession 5) tt
    = Some (ReplyError status msg, NewSession 5, tt, []) ∧
    (status = StatusInternalServerError ∨ status = StatusUnauthorized).
Proof.
  apply (UsersDelete_gate
           (mkDeleteDeps unit (λ v, inl v) (λ _ w, (w, None)) (λ _ w, (w, None))
              (λ _ w, (w, None)) (λ _ w, (w, None)))
           900 false "u1" "u2" (NewSession 5) tt).
  discriminate.
Defined.

(** X17. [Users.Delete] logs out with the cookie [UID], while [Login]
    stores the session under the value of the cookie [SID]: after a
    login, a deletion made with the cookie [UID] of that login leaves
    the session of the login in the store, still accepted by
    [AlreadyLoggedIn], unless the two cookie values are the same. *)
Theorem UsersDelete_leaves_session {W : Type} (d : deleteDeps W)
    (e : env) (s : session) (now later : Time) (admin : bool)
    (email password id userID : string) (user : User) (w : W)
    (rep : reply) (s' : session) (w' : W) (tr : list event) :
  checkAllowed s now email = true →
  GetContext e email = Some user →
  CompareHashAndPassword e (Password user) password = true →
  GenerateFixedJWT e (ID user) = inl userID →
  GenerateRunes e 27 ≠ userID →
  UsersDelete d later admin id (Some userID) (after (Login e now email password s)) w
    = Some (rep, s', w', tr) →
  ("UID", userID) ∈ cookiesSet (trace (Login e now email password s)) ∧
  store s' !! GenerateRunes e 27 = Some (mkUserData (Email user) now) ∧
  result (AlreadyLoggedIn later (Some (GenerateRunes e 27)) s') = true.
Proof.
  intros Hc Hdb Hpw Hjwt Hne Hdel.
  assert (store s' !! GenerateRunes e 27 = Some (mkUserData (Email user) now)) as Hs.
  { apply UsersDelete_session in Hdel as [->| ->];
      rewrite (verified_after _ _ _ _ _ user) by done; unfold set_store; cbn [store].
    - apply lookup_insert_eq.
    - rewrite lookup_delete_ne by done. apply lookup_insert_eq. }
  split_and!; [|done|by rewrite AlreadyLoggedIn_run, Hs].
  rewrite (Login_verified_run _ _ _ _ _ user), cookiesSet_verified, Hjwt by done.
  set_solver.
Qed.

Lemma UsersDelete_leaves_session_witness :
  result (AlreadyLoggedIn 900 (Some "sid")
            (after (Logout 900 false "jwt"
                      (after (Login exampleEnv 100 "a@x.com" "secret" (NewSession 5))))))
  = true.
Proof.
  apply (UsersDelete_leaves_session
           (mkDeleteDeps unit (λ v, inl "u1") (λ _ w, (w, None)) (λ _ w, (w, None))
              (λ _ w, (w, None)) (λ _ w, (w, None)))
           exampleEnv (NewSession 5) 100 900 false "a@x.com" "secret" "u1" "jwt"
           (mkUser "u1" "c1" "alice" "a@x.com" "hash") tt
           (ReplyHTMLText StatusOK "User deleted successfully.")
           (after (Logout 900 false "jwt"
                     (after (Login exampleEnv 100 "a@x.com" "secret" (NewSession 5)))))
           tt
           (trace (Logout 900 false "jwt"
                     (after (Login exampleEnv 100 "a@x.com" "secret" (NewSession 5))))));
    try reflexivity.
  discriminate.
Defined.

(** ** Package storage *)

(** X18. [tableExists] on two lists of models in a row is [tableExists]
    on the first, followed by [tableExists] on the second when the first
    returned no error: after a failing [CreateTable] the error is
    returned at once and no later model is migrated. *)
Theorem tableExists_app {D Model : Type}
    (AutoMigrate : Model → D → D) (HasTable : Model → D → bool)
    (CreateTable : Model → D → D * option string)
    (models1 models2 : list Model) (db : D) :
  tableExists AutoMigrate HasTable CreateTable (models1 ++ models2) db =
    match tableExists AutoMigrate HasTable CreateTable models1 db with
    | (db1, None) => tableExists AutoMigrate HasTable CreateTable models2 db1
    | (db1, Some msg) => (db1, Some msg)
    end.
Proof.
  induction models1 as [|model models1 IH] in db |- *; [done|].
  cbn [app tableExists].
  destruct (negb (HasTable model (AutoMigrate model db))); [|apply IH].
  destruct (CreateTable model (AutoMigrate model db)) as [db2 [msg|]]; [done|apply IH].
Qed.

(** X19. With a database in which [AutoMigrate] leaves the table of its
    model in place, [tableExists] creates no table and returns no error:
    it is the migrations of the models, in order. *)
Theorem tableExists_migrates {D Model : Type}
    (AutoMigrate : Model → D → D) (HasTable : Model → D → bool)
    (CreateTable : Model → D → D * option string)
    (models : list Model) (db : D) :
  (∀ model db', HasTable model (AutoMigrate model db') = true) →
  tableExists AutoMigrate HasTable CreateTable models db =
    (foldl (λ db' model, AutoMigrate model db') db models, None).
Proof.
  intros Hhas. induction models as [|model models IH] in db |- *; [done|].
  cbn [tableExists foldl]. by rewrite Hhas, IH.
Qed.

Lemma tableExists_migrates_witness :
  tableExists (λ model db, model :: db) (λ model db, bool_decide (model ∈ db))
    (λ model db, (db, Some "no")) [1%nat; 2%nat] [] = ([2%nat; 1%nat], None).
Proof.
  apply (tableExists_migrates (λ model db, model :: db)
           (λ model db, bool_decide (model ∈ db)) (λ model db, (db, Some "no"))
           [1%nat; 2%nat] []).
  intros model db'. apply bool_decide_eq_true_2. left.
Defined.

(** ** Owners of tokens and restart of the backoff *)

(** X20. A token does not change hands: if a token is in the store
    before and after a call, it belongs to the same email, unless the
    call is a login that draws this very token. *)
Theorem token_owner_stable
    (now : Time) (c : call) (s : session) (token : string) (before later : userData) :
  store s !! token = Some before →
  store (exec now c s) !! token = Some later →
  token ∉ loginToken c →
  email later = email before.
Proof.
  intros Hb Hl Hdraw.
  destruct c as [cookie| |e em password|admin c]; cbn [exec loginToken] in *.
  - destruct (AlreadyLoggedIn_after now cookie s) as [Heq|(t & u & _ & Hu & Heq)];
      rewrite Heq in Hl; [congruence|].
    unfold set_store in Hl. cbn [store] in Hl.
    destruct (decide (t = token)) as [->|Hne].
    + rewrite lookup_insert_eq in Hl. injection Hl as <-. cbn. congruence.
    + rewrite lookup_insert_ne in Hl by done. congruence.
  - rewrite Clean_lookup, Hb in Hl. cbv beta iota in Hl.
    destruct (lastSeen before <? now - maxIdle); congruence.
  - destruct (Login_after_cases e now em password s) as [Heq|[Heq|[user Heq]]];
      rewrite Heq in Hl.
    + congruence.
    + rewrite loginDelay_after in Hl. cbn [store] in Hl. congruence.
    + cbn [store] in Hl. rewrite lookup_insert_ne in Hl by set_solver. congruence.
  - rewrite Logout_after in Hl. unfold set_store in Hl. cbn [store] in Hl.
    destruct (decide (c = token)) as [->|Hne].
    + by rewrite lookup_delete_eq in Hl.
    + rewrite lookup_delete_ne in Hl by done. congruence.
Qed.

Lemma token_owner_stable_witness :
  email (mkUserData "a@x.com" 900) = email (mkUserData "a@x.com" 100).
Proof.
  apply (token_owner_stable 900 (CallAlreadyLoggedIn (Some "sid"))
           (after (Login exampleEnv 100 "a@x.com" "secret" (NewSession 5))) "sid"
           (mkUserData "a@x.com" 100) (mkUserData "a@x.com" 900)).
  - reflexivity.
  - reflexivity.
  - apply not_elem_of_empty.
Defined.

(** X21. A login that succeeds restarts the backoff: the first failure
    after it, with the same account and a wrong password, sets the
    deadline one [unitDelay] after its instant, however many failures
    were counted before the success. *)
Theorem backoff_restarts_after_success
    (e : env) (s : session) (now later : Time)
    (email password wrong : string) (user : User) :
  checkAllowed s now email = true →
  GetContext e email = Some user →
  CompareHashAndPassword e (Password user) password = true →
  CompareHashAndPassword e (Password user) wrong = false →
  let s1 := after (Login e now email password s) in
  let r := Login e later email wrong s1 in
  result r = Some (errorsNew "invalid email or password") ∧
  failures (after r) email = 1%nat ∧
  delay (after r) !! email = Some (later + unitDelay).
Proof.
  intros Hc Hdb Hpw Hwrong s1 r. subst s1 r.
  rewrite (verified_after _ _ _ _ _ user) by done.
  set (s1 := mkSession _ _ _ _ _).
  assert (delay s1 !! email = None) as Hd by apply lookup_delete_eq.
  assert (failures s1 email = 0%nat) as Hf.
  { unfold failures, triesOf, s1. cbn [tries]. by rewrite lookup_delete_eq. }
  assert (checkAllowed s1 later email = true) as Hc1.
  { rewrite checkAllowed_eq. unfold delayOf. by rewrite Hd. }
  rewrite (Login_wrong_password _ _ _ _ _ user) by done.
  rewrite result_mk, !after_mk, failures_loginDelay, delay_loginDelay, Hf.
  split_and!; [done..|]. f_equal.
Qed.

Lemma backoff_restarts_after_success_witness :
  delay (after (Login exampleEnv 900 "a@x.com" "guess"
                  (after (Login exampleEnv 100 "a@x.com" "secret" (NewSession 5)))))
    !! "a@x.com" = Some (900 + unitDelay).
Proof.
  apply (backoff_restarts_after_success exampleEnv (NewSession 5) 100 900
           "a@x.com" "secret" "guess" (mkUser "u1" "c1" "alice" "a@x.com" "hash"));
    reflexivity.
Defined.
